(** * Hiring pipeline: the graph repository, the filter, the team layout
      and the persistence endpoint

    A shallow embedding of [pages/index.tsx] (the [Home] component) and of
    [pages/api/data.ts] (the [/api/data] handler), followed by the properties
    of the specification that are stated about them.

    Conventions.
    - A React state cell [const [v, setV] = useState(..)] is a field of
      [AppState]; an event handler is a function from the state before the
      event to the state after it.  The handlers that call [saveData] also
      return the payload they POST ([None] when they return before saving).
    - JavaScript numbers are IEEE-754 binary64 values: [float].  Array indices
      and the integer grid arithmetic on them are exact in binary64 and are
      kept in [nat] and [Z]; [num_of_Z] injects them where the source mixes
      them with results of [Math.cos] and [Math.sin].
    - [Math.cos] and [Math.sin] are approximations chosen by the JavaScript
      engine; they are parameters of the layout.
    - A JavaScript [Map] iterates in insertion order: it is an association
      list whose [set] overwrites in place or appends at the end. *)

From Stdlib Require Import List String Ascii ZArith Lia Bool Arith FinFun.
From Stdlib Require Import Floats Uint63 DecimalString DecimalNat.
From Stdlib Require Import Permutation.
Import ListNotations.
Open Scope string_scope.
Open Scope list_scope.

Set Implicit Arguments.

(* ================================================================== *)
(** ** JavaScript primitives used by the source *)

Module Js.

(** A string in a condition: the empty string is the only falsy one. *)
Definition truthy (s : string) : bool := negb (s =? "").

(** [n.toString()] for an array length: decimal digits. *)
Definition toString (n : nat) : string :=
  NilEmpty.string_of_uint (Nat.to_uint n).

(** A small non-negative integer as a JavaScript number. *)
Definition num_of_Z (z : Z) : float := PrimFloat.of_uint63 (Uint63.of_Z z).
Definition num_of_nat (n : nat) : float := num_of_Z (Z.of_nat n).

(** [Math.PI], the binary64 value nearest to pi. *)
Definition Math_PI : float := 0x1.921fb54442d18p+1%float.

(** [arr.map((v, index) => f(v, index))]. *)
Fixpoint mapi_from {A B : Type} (f : A -> nat -> B) (i : nat) (l : list A)
  : list B :=
  match l with
  | [] => []
  | a :: r => f a i :: mapi_from f (S i) r
  end.
Definition mapi {A B : Type} (f : A -> nat -> B) (l : list A) : list B :=
  mapi_from f 0 l.

(** [new Set(ids)] and [set.has(id)]. *)
Definition JsSet := list string.
Definition set_has (s : JsSet) (k : string) : bool :=
  existsb (String.eqb k) s.

(** [Map<string, V>] with insertion-ordered iteration. *)
Section JsMap.
Variable V : Type.
Definition JsMap := list (string * V).

Fixpoint map_get (m : JsMap) (k : string) : option V :=
  match m with
  | [] => None
  | (k', v) :: r => if k' =? k then Some v else map_get r k
  end.

Definition map_has (m : JsMap) (k : string) : bool :=
  match map_get m k with Some _ => true | None => false end.

Fixpoint map_set (m : JsMap) (k : string) (v : V) : JsMap :=
  match m with
  | [] => [(k, v)]
  | (k', v') :: r =>
      if k' =? k then (k', v) :: r else (k', v') :: map_set r k v
  end.

Definition map_keys (m : JsMap) : list string := map fst m.
Definition map_values (m : JsMap) : list V := map snd m.
End JsMap.

End Js.

(* ================================================================== *)
(** ** The data model ([interface Person], [Link], [DataStructure],
       [NewNodeInput]) *)

Module Person.
Record t : Type := mk {
  id : string;
  name : string;
  status : string;
  starred : bool;
  team : string;
  notes : string;
  x : option float;   (* [x?: number]: [None] is [undefined] *)
  y : option float
}.
End Person.

Module Link.
Record t : Type := mk { source : string; target : string }.
End Link.

Module DataStructure.
Record t : Type := mk { nodes : list Person.t; links : list Link.t }.
End DataStructure.

Module NewNodeInput.
Record t : Type := mk {
  name : string;
  status : string;
  starred : bool;
  team : string
}.
End NewNodeInput.

(** The state cells of [Home]. *)
Record AppState : Type := mkState {
  nodes : list Person.t;
  links : list Link.t;
  newNode : NewNodeInput.t;
  connection : string;
  filterStatus : string;
  filterStarred : bool;
  filterTeam : string;
  teamOption : string;
  selectedPerson : option Person.t;
  childName : string;
  childStatus : string;
  childStarred : bool
}.

(** [statusColors].  A lookup [statusColors[status]] is modelled on the four
    own keys; for a status that names a property of [Object.prototype]
    ("constructor", "toString", ..), which no dropdown of the page offers, the
    page reads that property and the model reads no colour. *)
Definition statusColors : Js.JsMap string :=
  [ ("To do", "#3498db"); ("Interview", "#e67e22");
    ("CEO", "#2ecc71"); ("Rejected", "#e74c3c") ].

(** [saveData(updatedNodes, updatedLinks)]: the payload that is POSTed. *)
Definition saveData (updatedNodes : list Person.t) (updatedLinks : list Link.t)
  : DataStructure.t :=
  DataStructure.mk updatedNodes updatedLinks.

(* ================================================================== *)
(** ** Graph repository: the four mutations *)

(** [{ ...newNode, id, notes: '' }]. *)
Definition nodeToAdd (input : NewNodeInput.t) (id : string) : Person.t :=
  Person.mk id (NewNodeInput.name input) (NewNodeInput.status input)
            (NewNodeInput.starred input) (NewNodeInput.team input) ""
            None None.

Definition resetNewNode : NewNodeInput.t :=
  NewNodeInput.mk "" "To do" false "".

Definition addNode (s : AppState) : AppState * option DataStructure.t :=
  if negb (Js.truthy (NewNodeInput.name (newNode s))) then (s, None)
  else
    let id := Js.toString (List.length (nodes s) + 1) in
    let updatedNodes := nodes s ++ [nodeToAdd (newNode s) id] in
    let updatedLinks :=
      if Js.truthy (connection s)
      then links s ++ [Link.mk (connection s) id]
      else links s in
    (mkState updatedNodes updatedLinks resetNewNode ""
             (filterStatus s) (filterStarred s) (filterTeam s) ""
             (selectedPerson s) (childName s) (childStatus s) (childStarred s),
     Some (saveData updatedNodes updatedLinks)).

(** [updatePerson].  [setNodes] runs before [await saveData(..)] and
    [setSelectedPerson(null)] after it: the selection is cleared only in a
    run in which the request resolves, which [resolved] says. *)
Definition updatePersonWith (resolved : bool) (s : AppState)
  : AppState * option DataStructure.t :=
  match selectedPerson s with
  | None => (s, None)
  | Some sel =>
      let updatedNodes :=
        map (fun node =>
               if Person.id node =? Person.id sel then sel else node)
            (nodes s) in
      (mkState updatedNodes (links s) (newNode s) (connection s)
               (filterStatus s) (filterStarred s) (filterTeam s) (teamOption s)
               (if resolved then None else selectedPerson s)
               (childName s) (childStatus s) (childStarred s),
       Some (saveData updatedNodes (links s)))
  end.

(** The run of [updatePerson] in which the request resolves. *)
Definition updatePerson (s : AppState) : AppState * option DataStructure.t :=
  updatePersonWith true s.

Definition addChildPerson (s : AppState) : AppState * option DataStructure.t :=
  match selectedPerson s with
  | None => (s, None)
  | Some sel =>
      if negb (Js.truthy (childName s)) then (s, None)
      else
        let id := Js.toString (List.length (nodes s) + 1) in
        let newChild :=
          Person.mk id (childName s) (childStatus s) (childStarred s) "" ""
                    None None in
        let updatedNodes := nodes s ++ [newChild] in
        let updatedLinks := links s ++ [Link.mk (Person.id sel) id] in
        (mkState updatedNodes updatedLinks (newNode s) (connection s)
                 (filterStatus s) (filterStarred s) (filterTeam s)
                 (teamOption s) (selectedPerson s) "" "To do" false,
         Some (saveData updatedNodes updatedLinks))
  end.

Definition deletePerson (s : AppState) : AppState * option DataStructure.t :=
  match selectedPerson s with
  | None => (s, None)
  | Some sel =>
      let updatedNodes :=
        filter (fun n => negb (Person.id n =? Person.id sel)) (nodes s) in
      let updatedLinks :=
        filter (fun l => negb (Link.source l =? Person.id sel)
                         && negb (Link.target l =? Person.id sel))
               (links s) in
      (mkState updatedNodes updatedLinks (newNode s) (connection s)
               (filterStatus s) (filterStarred s) (filterTeam s) (teamOption s)
               None (childName s) (childStatus s) (childStarred s),
       Some (saveData updatedNodes updatedLinks))
  end.

(** [handleNodePositionChange(nodeId, x, y)], called when a drag stops: the
    only place where a [Person] receives stored coordinates. *)
Definition handleNodePositionChange (nodeId : string) (px py : float)
                                    (s : AppState) : AppState :=
  if negb (existsb (fun n => Person.id n =? nodeId) (nodes s)) then s
  else
    mkState
      (map (fun n =>
              if Person.id n =? nodeId
              then Person.mk (Person.id n) (Person.name n) (Person.status n)
                             (Person.starred n) (Person.team n)
                             (Person.notes n) (Some px) (Some py)
              else n)
           (nodes s))
      (links s) (newNode s) (connection s)
      (filterStatus s) (filterStarred s) (filterTeam s) (teamOption s)
      (selectedPerson s) (childName s) (childStatus s) (childStarred s).

(** [handleNodeClick(nodeId)]: selects a copy of the clicked person. *)
Definition handleNodeClick (nodeId : string) (s : AppState) : AppState :=
  if String.prefix "team_" nodeId then s
  else
    match find (fun node => Person.id node =? nodeId) (nodes s) with
    | None => s
    | Some person =>
        mkState (nodes s) (links s) (newNode s) (connection s)
                (filterStatus s) (filterStarred s) (filterTeam s)
                (teamOption s) (Some person) "" "To do" false
    end.

(** The four mutations as actions on the state. *)
Inductive Action : Type :=
| AddPerson
| UpdatePerson
| AddChildPerson
| DeletePerson.

Definition step (a : Action) (s : AppState) : AppState :=
  match a with
  | AddPerson => fst (addNode s)
  | UpdatePerson => fst (updatePerson s)
  | AddChildPerson => fst (addChildPerson s)
  | DeletePerson => fst (deletePerson s)
  end.

(* ================================================================== *)
(** ** Filter engine *)

Definition nodePasses (s : AppState) (node : Person.t) : bool :=
  let statusMatch :=
    if Js.truthy (filterStatus s)
    then Person.status node =? filterStatus s else true in
  let starredMatch :=
    if filterStarred s then Bool.eqb (Person.starred node) true else true in
  let teamMatch :=
    if Js.truthy (filterTeam s)
    then Person.team node =? filterTeam s else true in
  statusMatch && starredMatch && teamMatch.

Definition filteredNodes (s : AppState) : list Person.t :=
  filter (nodePasses s) (nodes s).

Definition filteredNodeIds (s : AppState) : Js.JsSet :=
  map Person.id (filteredNodes s).

Definition filteredLinks (s : AppState) : list Link.t :=
  filter (fun link =>
            Js.set_has (filteredNodeIds s) (Link.source link)
            && Js.set_has (filteredNodeIds s) (Link.target link))
         (links s).

(* ================================================================== *)
(** ** Team layout engine *)

(** Code that dereferences the result of [map.get(k)!] throws a [TypeError]
    when the key is absent: such code returns [None]. *)
Definition bind {A B : Type} (m : option A) (f : A -> option B) : option B :=
  match m with
  | Some a => f a
  | None => None
  end.

Notation "'let*' v ':=' m 'in' k" := (bind m (fun v => k))
  (at level 10, v pattern, m at level 100, k at level 200).

Module TeamNode.
Record t : Type := mk { id : string; label : string }.
End TeamNode.

Module PinnedTeamNode.
Record t : Type := mk {
  id : string;
  label : string;
  color : string;
  size : Z;
  fx : Z;
  fy : Z;
  static : bool
}.
End PinnedTeamNode.

Module Point.
Record t : Type := mk { x : Z; y : Z }.
End Point.

(** The two shapes of object that are pushed into [graphNodes: any[]]. *)
Module GraphNode.
Inductive t : Type :=
| person (id label : string) (color : option string) (opacity : float)
         (x y : float)
| pinned (teamNode : PinnedTeamNode.t).
End GraphNode.

(** The template literal [`team_${node.team}`]. *)
Definition team_id (team : string) : string := String.append "team_" team.

Definition teamNodesMap_step (m : Js.JsMap TeamNode.t) (node : Person.t)
  : Js.JsMap TeamNode.t :=
  if Js.truthy (Person.team node) then
    if negb (Js.map_has m (Person.team node))
    then Js.map_set m (Person.team node)
                    (TeamNode.mk (team_id (Person.team node)) (Person.team node))
    else m
  else m.

Definition teamNodesMap (s : AppState) : Js.JsMap TeamNode.t :=
  fold_left teamNodesMap_step (filteredNodes s) [].

Definition yPositions : list Z := [50; 450; 850]%Z.
Definition teamNodesArray (s : AppState) : list TeamNode.t :=
  Js.map_values (teamNodesMap s).
Definition TEAMS_IN_A_ROW : nat := 3.

(** [arr[row] || 0]: zero when the index is out of range, and when the
    element is itself falsy. *)
Definition index_or_zero (arr : list Z) (row : nat) : Z :=
  match nth_error arr row with
  | Some v => if (v =? 0)%Z then 0%Z else v
  | None => 0%Z
  end.

Definition pinTeamNode (teamNode : TeamNode.t) (index : nat)
  : PinnedTeamNode.t :=
  let row := index / TEAMS_IN_A_ROW in
  PinnedTeamNode.mk
    (TeamNode.id teamNode) (TeamNode.label teamNode)
    "#9b59b6" 600
    ((Z.of_nat (index mod TEAMS_IN_A_ROW) + 1) * 800)%Z
    (index_or_zero yPositions row)
    true.

Definition pinnedTeamNodes (s : AppState) : list PinnedTeamNode.t :=
  Js.mapi pinTeamNode (teamNodesArray s).

Definition teamLinks_step (acc : list Link.t) (node : Person.t) : list Link.t :=
  if Js.truthy (Person.team node)
  then acc ++ [Link.mk (team_id (Person.team node)) (Person.id node)]
  else acc.

Definition teamLinks (s : AppState) : list Link.t :=
  fold_left teamLinks_step (filteredNodes s) [].

Definition teamPositions_step (m : Js.JsMap Point.t)
                              (teamNode : PinnedTeamNode.t) : Js.JsMap Point.t :=
  Js.map_set m (PinnedTeamNode.label teamNode)
             (Point.mk (PinnedTeamNode.fx teamNode) (PinnedTeamNode.fy teamNode)).

Definition teamPositions (s : AppState) : Js.JsMap Point.t :=
  fold_left teamPositions_step (pinnedTeamNodes s) [].

(** The label, colour and opacity shared by both placements of a person. *)
Definition nodeLabel (node : Person.t) : string :=
  if Person.starred node
  then String.append (Person.name node) " ⭐"
  else Person.name node.

Definition personNode (node : Person.t) (px py : float) : GraphNode.t :=
  GraphNode.person
    (Person.id node) (nodeLabel node)
    (Js.map_get statusColors (Person.status node))
    (* 0.4 as the engine reads it: the nearest binary64 value *)
    (if Person.status node =? "Rejected"
     then 0x1.999999999999ap-2%float else 1%float)
    px py.

(** [v !== undefined ? v : 0]. *)
Definition orZero (v : option float) : float :=
  match v with
  | Some f => f
  | None => 0%float
  end.

(** The first [filteredNodes.forEach]: a person whose team has a position is
    filed under its team, every other person is pushed at once, at its stored
    coordinates. *)
Definition group_step (positions : Js.JsMap Point.t)
    (acc : option (list GraphNode.t * Js.JsMap (list Person.t)))
    (node : Person.t)
  : option (list GraphNode.t * Js.JsMap (list Person.t)) :=
  let* (graphPersonNodes, teamGroups) := acc in
  if Js.truthy (Person.team node) && Js.map_has positions (Person.team node)
  then
    let teamGroups :=
      if negb (Js.map_has teamGroups (Person.team node))
      then Js.map_set teamGroups (Person.team node) []
      else teamGroups in
    let* members := Js.map_get teamGroups (Person.team node) in
    Some (graphPersonNodes,
          Js.map_set teamGroups (Person.team node) (members ++ [node]))
  else
    Some (graphPersonNodes
            ++ [personNode node (orZero (Person.x node))
                                (orZero (Person.y node))],
          teamGroups).

Section Layout.

(** [Math.cos] and [Math.sin] of the engine that runs the page. *)
Variables Math_cos Math_sin : float -> float.

(** The inner [nodesInTeam.forEach((node, i) => ..)]. *)
Definition circleNode (teamPos : Point.t) (numNodes : nat)
                      (node : Person.t) (i : nat) : GraphNode.t :=
  let radius := 200%float in
  let angle :=
    ((2 * Js.Math_PI * Js.num_of_nat i) / Js.num_of_nat numNodes)%float in
  let px := (Js.num_of_Z (Point.x teamPos) + radius * Math_cos angle)%float in
  let py := (Js.num_of_Z (Point.y teamPos) + radius * Math_sin angle)%float in
  personNode node px py.

(** The body of [teamGroups.forEach((nodesInTeam, teamName) => ..)]. *)
Definition circle_step (positions : Js.JsMap Point.t)
    (acc : option (list GraphNode.t))
    (group : string * list Person.t) : option (list GraphNode.t) :=
  let* graphPersonNodes := acc in
  let (teamName, nodesInTeam) := group in
  let* teamPos := Js.map_get positions teamName in
  let numNodes := List.length nodesInTeam in
  Some (graphPersonNodes ++ Js.mapi (circleNode teamPos numNodes) nodesInTeam).

Definition graphPersonNodes (s : AppState) : option (list GraphNode.t) :=
  let* (free, teamGroups) :=
    fold_left (group_step (teamPositions s)) (filteredNodes s)
              (Some ([], [])) in
  fold_left (circle_step (teamPositions s)) teamGroups (Some free).

Definition graphNodes (s : AppState) : option (list GraphNode.t) :=
  let* persons := graphPersonNodes s in
  Some (persons ++ map GraphNode.pinned (pinnedTeamNodes s)).

End Layout.

Definition graphLinks (s : AppState) : list Link.t :=
  filteredLinks s ++ teamLinks s.

(** ** Render adapter: the node descriptors handed to the graph widget *)

Record RFNode : Type := mkRFNode {
  rf_id : string;
  position : float * float;
  data_label : string;
  style_background : option string;
  style_opacity : option float;
  draggable : bool
}.

Definition rfNode (node : GraphNode.t) : RFNode :=
  match node with
  | GraphNode.person id label color opacity px py =>
      mkRFNode id (px, py) label color (Some opacity)
               (negb (String.prefix "team_" id))
  | GraphNode.pinned t =>
      mkRFNode (PinnedTeamNode.id t)
               (Js.num_of_Z (PinnedTeamNode.fx t),
                Js.num_of_Z (PinnedTeamNode.fy t))
               (PinnedTeamNode.label t)
               (Some (PinnedTeamNode.color t)) None
               (negb (String.prefix "team_" (PinnedTeamNode.id t)))
  end.

Definition rfNodes (Math_cos Math_sin : float -> float) (s : AppState)
  : option (list RFNode) :=
  let* nodes := graphNodes Math_cos Math_sin s in
  Some (map rfNode nodes).

(* ================================================================== *)
(** ** Persistence gateway: the handler of [pages/api/data.ts] *)

Module Api.

(** A value that [req.body] and [JSON.parse] can hold. *)
#[local] Set Warnings "-register-all".
Inductive json : Type :=
| JNull
| JBool (b : bool)
| JNumber (n : float)
| JString (s : string)
| JArray (items : list json)
| JObject (fields : list (string * json)).

Record NextApiRequest : Type := mkRequest { method : string; body : json }.

Inductive NextApiResponse : Type :=
| respond_json (status : nat) (value : json)  (* [res.status(n).json(v)] *)
| respond_end (status : nat)                  (* [res.status(n).end()] *)
| threw.                                      (* an uncaught exception *)

(** The file at [dataFilePath]: [None] while [fs.existsSync] is false. *)
Definition DataFile : Type := option string.

Section Handler.

(** [JSON.stringify(value, null, indent)] and [JSON.parse(text)] of the
    platform; [JSON.parse] throws a [SyntaxError] on [None]. *)
Variable JSON_stringify : json -> nat -> string.
Variable JSON_parse : string -> option json.

Definition handler (req : NextApiRequest) (file : DataFile)
  : DataFile * NextApiResponse :=
  if method req =? "GET" then
    match file with
    | Some data =>
        match JSON_parse data with
        | Some value => (file, respond_json 200 value)
        | None => (file, threw)
        end
    | None =>
        (file,
         respond_json 200
           (JObject [("nodes", JArray []); ("links", JArray [])]))
    end
  else if method req =? "POST" then
    let data := body req in
    (Some (JSON_stringify data 2),
     respond_json 200 (JObject [("message", JString "Data saved")]))
  else (file, respond_end 405).


Definition load (file : DataFile) : NextApiResponse :=
  snd (handler (mkRequest "GET" JNull) file).

End Handler.

End Api.

(* ================================================================== *)
(** ** Vocabulary of the statements *)

(** [kept P l l']: [l'] is [l] with exactly the elements outside [P] taken
    out; the elements in [P] stay, in their order and as often as before. *)
Inductive kept {A : Type} (P : A -> Prop) : list A -> list A -> Prop :=
| kept_nil : kept P [] []
| kept_keep a l l' : P a -> kept P l l' -> kept P (a :: l) (a :: l')
| kept_drop a l l' : ~ P a -> kept P l l' -> kept P (a :: l) l'.

(** The ids of the persons of a document. *)
Definition ids (s : AppState) : list string := map Person.id (nodes s).

(** The id that [addNode] and [addChildPerson] give to the next person. *)
Definition next_id (s : AppState) : string :=
  Js.toString (List.length (nodes s) + 1).

(** Whether an action, run in [s], appends a person. *)
Definition appends (a : Action) (s : AppState) : bool :=
  match a with
  | AddPerson => Js.truthy (NewNodeInput.name (newNode s))
  | AddChildPerson =>
      match selectedPerson s with
      | Some _ => Js.truthy (childName s)
      | None => false
      end
  | UpdatePerson | DeletePerson => false
  end.

(** The ids of the document are "1", ..., "n", in this order. *)
Definition sequential (s : AppState) : Prop :=
  ids s = map Js.toString (seq 1 (List.length (nodes s))).

(** The distinct elements of a list, each at its first occurrence. *)
Fixpoint distinct (l : list string) : list string :=
  match l with
  | [] => []
  | a :: r => a :: filter (fun b => negb (b =? a)) (distinct r)
  end.

(** The distinct non-empty team names of a list of persons, first seen
    first. *)
Definition distinctTeams (persons : list Person.t) : list string :=
  distinct (filter Js.truthy (map Person.team persons)).

(** Documents used as examples: the cascading-delete scenario of the
    specification, with person "2" selected. *)
Definition plain (id team : string) (px py : option float) : Person.t :=
  Person.mk id (String.append "person " id) "To do" false team "" px py.

Definition idle (persons : list Person.t) (edges : list Link.t) : AppState :=
  mkState persons edges resetNewNode "" "" false "" "" None "" "To do" false.

Definition select (p : Person.t) (s : AppState) : AppState :=
  mkState (nodes s) (links s) (newNode s) (connection s)
          (filterStatus s) (filterStarred s) (filterTeam s) (teamOption s)
          (Some p) (childName s) (childStatus s) (childStarred s).

Definition typeName (name : string) (connectTo : string) (s : AppState)
  : AppState :=
  mkState (nodes s) (links s)
          (NewNodeInput.mk name (NewNodeInput.status (newNode s))
                           (NewNodeInput.starred (newNode s))
                           (NewNodeInput.team (newNode s)))
          connectTo
          (filterStatus s) (filterStarred s) (filterTeam s) (teamOption s)
          (selectedPerson s) (childName s) (childStatus s) (childStarred s).

Definition scenario : AppState :=
  select (plain "2" "" None None)
    (idle [plain "1" "" None None; plain "2" "" None None;
           plain "3" "" None None]
          [Link.mk "1" "2"; Link.mk "2" "3"]).

(** The entry of [teamNodesMap] made for a team. *)
Definition teamEntry (name : string) : string * TeamNode.t :=
  (name, TeamNode.mk (team_id name) name).

(** The test of the first pass: [node.team && teamPositions.has(node.team)]. *)
Definition hasTeamPosition (positions : Js.JsMap Point.t) (node : Person.t)
  : bool :=
  Js.truthy (Person.team node) && Js.map_has positions (Person.team node).

(** The node pushed by the [else] branch of the first pass. *)
Definition freeNode (node : Person.t) : GraphNode.t :=
  personNode node (orZero (Person.x node)) (orZero (Person.y node)).

(** The members filed under a team so far. *)
Definition membersOf (teamGroups : Js.JsMap (list Person.t)) (team : string)
  : list Person.t :=
  match Js.map_get teamGroups team with
  | Some members => members
  | None => []
  end.

(** The entry of [teamPositions] made for a pinned team node. *)
Definition positionEntry (teamNode : PinnedTeamNode.t) : string * Point.t :=
  (PinnedTeamNode.label teamNode,
   Point.mk (PinnedTeamNode.fx teamNode) (PinnedTeamNode.fy teamNode)).

(** A person of team "Eng" that was dragged to (10, 20). *)
Definition dragged : AppState :=
  handleNodePositionChange "1" 10%float 20%float
    (idle [plain "1" "Eng" None None] []).

(** A person of a team with its stored coordinates erased; a person
    without a team as it is. *)
Definition unstore (p : Person.t) : Person.t :=
  if Js.truthy (Person.team p)
  then Person.mk (Person.id p) (Person.name p) (Person.status p)
                 (Person.starred p) (Person.team p) (Person.notes p) None None
  else p.

Definition unstoreTeams (s : AppState) : AppState :=
  mkState (map unstore (nodes s)) (links s) (newNode s) (connection s)
          (filterStatus s) (filterStarred s) (filterTeam s) (teamOption s)
          (selectedPerson s) (childName s) (childStatus s) (childStarred s).

Definition unstoreGroups (teamGroups : Js.JsMap (list Person.t))
  : Js.JsMap (list Person.t) :=
  map (fun group => (fst group, map unstore (snd group))) teamGroups.

Definition unstoreAcc (acc : list GraphNode.t * Js.JsMap (list Person.t))
  : list GraphNode.t * Js.JsMap (list Person.t) :=
  (fst acc, unstoreGroups (snd acc)).

(** A codec defined on the texts of the empty object and of null, where it
    agrees with JSON. *)
Definition stringify_empty (value : Api.json) (indent : nat) : string :=
  match value with
  | Api.JObject [] => "{}"
  | _ => "null"
  end.

Definition parse_empty (text : string) : option Api.json :=
  if text =? "{}" then Some (Api.JObject [])
  else if text =? "null" then Some Api.JNull
  else None.

(* ================================================================== *)
(** ** The rest of the page: edges, event handlers, derived lists *)

(** The edge descriptors handed to the graph widget. *)
Record RFEdge : Type := mkRFEdge {
  edge_id : string;
  edge_source : string;
  edge_target : string;
  animated : bool
}.

(** The template literal [`e-${edge.source}-${edge.target}-${index}`]. *)
Definition edgeId (edge : Link.t) (index : nat) : string :=
  String.append "e-"
    (String.append (Link.source edge)
       (String.append "-"
          (String.append (Link.target edge)
             (String.append "-" (Js.toString index))))).

(** The body of [graphLinks.map((edge, index) => ..)]; [persons] is the
    state cell [nodes].  [targetNode?.starred || false] is [false] when no
    person has the id of the target. *)
Definition rfEdge (persons : list Person.t) (edge : Link.t) (index : nat)
  : RFEdge :=
  let targetNode :=
    find (fun n => Person.id n =? Link.target edge) persons in
  mkRFEdge (edgeId edge index) (Link.source edge) (Link.target edge)
           (match targetNode with
            | Some n => Person.starred n || false
            | None => false
            end).

Definition rfEdges (s : AppState) : list RFEdge :=
  Js.mapi (rfEdge (nodes s)) (graphLinks s).

(** [onNodeDragStop(_, node)] and [onNodeClick(_, node)]. *)
Definition onNodeDragStop (nodeId : string) (px py : float) (s : AppState)
  : AppState :=
  handleNodePositionChange nodeId px py s.

Definition onNodeClick (nodeId : string) (s : AppState) : AppState :=
  if String.prefix "team_" nodeId then s else handleNodeClick nodeId s.

(** [setSelectedPerson(v)]. *)
Definition setSelectedPerson (v : option Person.t) (s : AppState) : AppState :=
  mkState (nodes s) (links s) (newNode s) (connection s)
          (filterStatus s) (filterStarred s) (filterTeam s) (teamOption s)
          v (childName s) (childStatus s) (childStarred s).

(** The three controls of the quick-edit modal; the modal, and with it the
    controls, exist only while a person is selected. *)
Inductive Edit : Type :=
| EditStatus (value : string)
| EditStarred (checked : bool)
| EditNotes (value : string).

Definition editPerson (e : Edit) (p : Person.t) : Person.t :=
  match e with
  | EditStatus value =>
      Person.mk (Person.id p) (Person.name p) value (Person.starred p)
                (Person.team p) (Person.notes p) (Person.x p) (Person.y p)
  | EditStarred checked =>
      Person.mk (Person.id p) (Person.name p) (Person.status p) checked
                (Person.team p) (Person.notes p) (Person.x p) (Person.y p)
  | EditNotes value =>
      Person.mk (Person.id p) (Person.name p) (Person.status p)
                (Person.starred p) (Person.team p) value
                (Person.x p) (Person.y p)
  end.

Definition onEdit (e : Edit) (s : AppState) : AppState :=
  match selectedPerson s with
  | Some p => setSelectedPerson (Some (editPerson e p)) s
  | None => s
  end.

(** The [onChange] of the team dropdown of the top form, and of the text
    input shown while the dropdown is on "other". *)
Definition onTeamOptionChange (val : string) (s : AppState) : AppState :=
  mkState (nodes s) (links s)
          (NewNodeInput.mk (NewNodeInput.name (newNode s))
                           (NewNodeInput.status (newNode s))
                           (NewNodeInput.starred (newNode s))
                           (if negb (val =? "other") then val else ""))
          (connection s)
          (filterStatus s) (filterStarred s) (filterTeam s) val
          (selectedPerson s) (childName s) (childStatus s) (childStarred s).

Definition onNewTeamChange (text : string) (s : AppState) : AppState :=
  if teamOption s =? "other" then
    mkState (nodes s) (links s)
            (NewNodeInput.mk (NewNodeInput.name (newNode s))
                             (NewNodeInput.status (newNode s))
                             (NewNodeInput.starred (newNode s)) text)
            (connection s)
            (filterStatus s) (filterStarred s) (filterTeam s) (teamOption s)
            (selectedPerson s) (childName s) (childStatus s) (childStarred s)
  else s.

(** [setFilterStatus(status)]: the status dropdown of the filters and the
    click on a tile of the statistics. *)
Definition setFilterStatus (status : string) (s : AppState) : AppState :=
  mkState (nodes s) (links s) (newNode s) (connection s)
          status (filterStarred s) (filterTeam s) (teamOption s)
          (selectedPerson s) (childName s) (childStatus s) (childStarred s).

(** [new Set(values)] read back with [Array.from]: the values in insertion
    order, a value that is already there being ignored. *)
Definition set_add (set : Js.JsSet) (v : string) : Js.JsSet :=
  if Js.set_has set v then set else set ++ [v].

Definition new_Set (values : list string) : Js.JsSet :=
  fold_left set_add values [].

Definition teamOptionsList (s : AppState) : list string :=
  new_Set (filter (fun team => negb (team =? ""))
                  (map Person.team (nodes s))).

(** [statusStats]: [Object.keys(statusColors).reduce(..)], an object whose
    keys are the four statuses in the order of [statusColors]. *)
Definition statusCount (s : AppState) (status : string) : nat :=
  List.length (filter (fun node => Person.status node =? status) (nodes s)).

Definition statusStats (s : AppState) : Js.JsMap nat :=
  fold_left (fun acc status => Js.map_set acc status (statusCount s status))
            (Js.map_keys statusColors) [].

(** A run of the endpoint on a sequence of requests: the file it leaves and
    the responses it gave. *)
Fixpoint serve (JSON_stringify : Api.json -> nat -> string)
               (JSON_parse : string -> option Api.json)
               (requests : list Api.NextApiRequest) (file : Api.DataFile)
  : Api.DataFile * list Api.NextApiResponse :=
  match requests with
  | [] => (file, [])
  | req :: rest =>
      let (file1, res) := Api.handler JSON_stringify JSON_parse req file in
      let (file2, ress) := serve JSON_stringify JSON_parse rest file1 in
      (file2, res :: ress)
  end.

(** The body of the last POST of a sequence of requests. *)
Fixpoint lastPosted (requests : list Api.NextApiRequest) : option Api.json :=
  match requests with
  | [] => None
  | req :: rest =>
      match lastPosted rest with
      | Some body => Some body
      | None =>
          if (Api.method req =? "GET") then None
          else if (Api.method req =? "POST") then Some (Api.body req)
          else None
      end
  end.

(** The person [p] with the coordinates a drag gives it. *)
Definition moved (px py : float) (p : Person.t) : Person.t :=
  Person.mk (Person.id p) (Person.name p) (Person.status p)
            (Person.starred p) (Person.team p) (Person.notes p)
            (Some px) (Some py).

(** The edits of a quick-edit session, applied in order. *)
Definition applyEdits (edits : list Edit) (p : Person.t) : Person.t :=
  fold_left (fun q e => editPerson e q) edits p.

Definition typeEdits (edits : list Edit) (s : AppState) : AppState :=
  fold_left (fun st e => onEdit e st) edits s.

(** No link dangles: both ends of every link are ids of persons. *)
Definition linksClosed (s : AppState) : Prop :=
  forall l, In l (links s) ->
            In (Link.source l) (ids s) /\ In (Link.target l) (ids s).

(** Whether a string has a dash, and what follows its last dash. *)
Fixpoint hasDash (s : string) : bool :=
  match s with
  | EmptyString => false
  | String c r => (Ascii.eqb c "-"%char) || hasDash r
  end.

Fixpoint afterLastDash (s : string) : string :=
  match s with
  | EmptyString => EmptyString
  | String c r =>
      if hasDash r then afterLastDash r
      else if Ascii.eqb c "-"%char then r else String c r
  end.

(** The layout, written out.  The members of a team among the visible
    persons, the groups of all teams, the circle of one group, and the whole
    list of graph nodes: the persons without a team, the circles of the teams
    in the order of the teams, the team nodes. *)
Definition membersIn (persons : list Person.t) (team : string)
  : list Person.t :=
  filter (fun p => Person.team p =? team) persons.

Definition teamGroupsOf (persons : list Person.t) : Js.JsMap (list Person.t) :=
  map (fun team => (team, membersIn persons team)) (distinctTeams persons).

Definition circleOf (Math_cos Math_sin : float -> float)
                    (positions : Js.JsMap Point.t)
                    (group : string * list Person.t) : list GraphNode.t :=
  match Js.map_get positions (fst group) with
  | Some teamPos =>
      Js.mapi (circleNode Math_cos Math_sin teamPos (List.length (snd group)))
              (snd group)
  | None => []
  end.

Definition layoutOf (Math_cos Math_sin : float -> float) (s : AppState)
  : list GraphNode.t :=
  map freeNode
      (filter (fun n => negb (Js.truthy (Person.team n))) (filteredNodes s))
  ++ flat_map (circleOf Math_cos Math_sin (teamPositions s))
              (teamGroupsOf (filteredNodes s))
  ++ map GraphNode.pinned (pinnedTeamNodes s).

(* ================================================================== *)
(** ** The earlier variant of the page, as quoted in [README.md]

    The team map, the membership links and the position lookup are built as
    in the page above; the team nodes are pinned on a single row and a person
    is positioned by [graphPersonNodes = filteredNodes.map(..)]. *)

Module Earlier.

Definition pinTeamNode (teamNode : TeamNode.t) (index : nat)
  : PinnedTeamNode.t :=
  PinnedTeamNode.mk
    (TeamNode.id teamNode) (TeamNode.label teamNode)
    "#9b59b6" 600
    ((Z.of_nat index + 1) * 250)%Z
    50%Z
    true.

Definition pinnedTeamNodes (s : AppState) : list PinnedTeamNode.t :=
  Js.mapi pinTeamNode (teamNodesArray s).

Definition teamPositions (s : AppState) : Js.JsMap Point.t :=
  fold_left teamPositions_step (pinnedTeamNodes s) [].

(** A person node: [extraProps] is [{}] ([None]) or [{ x, y }]. *)
Record PersonNode : Type := mkPersonNode {
  id : string;
  label : string;
  color : option string;
  opacity : float;
  extraProps : option (float * float)
}.

Definition isUndefined (v : option float) : bool :=
  match v with
  | Some _ => false
  | None => true
  end.

Definition graphPersonNode (positions : Js.JsMap Point.t) (node : Person.t)
  : PersonNode :=
  let teamPos :=
    if Js.truthy (Person.team node)
       && isUndefined (Person.x node) && isUndefined (Person.y node)
    then Js.map_get positions (Person.team node)
    else None in
  let extraProps :=
    match teamPos with
    | Some teamPos =>
        Some (Js.num_of_Z (Point.x teamPos),
              (Js.num_of_Z (Point.y teamPos) + 100)%float)
    | None =>
        match Person.x node, Person.y node with
        | Some px, Some py => Some (px, py)
        | _, _ => None
        end
    end in
  mkPersonNode (Person.id node) (nodeLabel node)
               (Js.map_get statusColors (Person.status node))
               (if Person.status node =? "Rejected"
                then 0x1.999999999999ap-2%float else 1%float)
               extraProps.

Definition graphPersonNodes (s : AppState) : list PersonNode :=
  map (graphPersonNode (teamPositions s)) (filteredNodes s).

End Earlier.

(* ================================================================== *)
(** ** Sessions: every event of the page

    The remaining [onChange] handlers, and a session as a sequence of events.
    The controls of the modal (its inputs and its three buttons) exist only
    while a person is selected.  [ClickSave resolved] says whether the save
    request resolves before the next event; a request that resolves later
    clears the selection at that point, which is what [ClickCancel] there
    does. *)

Definition setNewNode (v : NewNodeInput.t) (s : AppState) : AppState :=
  mkState (nodes s) (links s) v (connection s)
          (filterStatus s) (filterStarred s) (filterTeam s) (teamOption s)
          (selectedPerson s) (childName s) (childStatus s) (childStarred s).

Definition onNameChange (value : string) (s : AppState) : AppState :=
  setNewNode (NewNodeInput.mk value (NewNodeInput.status (newNode s))
                              (NewNodeInput.starred (newNode s))
                              (NewNodeInput.team (newNode s))) s.

Definition onStatusChange (value : string) (s : AppState) : AppState :=
  setNewNode (NewNodeInput.mk (NewNodeInput.name (newNode s)) value
                              (NewNodeInput.starred (newNode s))
                              (NewNodeInput.team (newNode s))) s.

Definition onStarredChange (checked : bool) (s : AppState) : AppState :=
  setNewNode (NewNodeInput.mk (NewNodeInput.name (newNode s))
                              (NewNodeInput.status (newNode s)) checked
                              (NewNodeInput.team (newNode s))) s.

Definition setConnection (value : string) (s : AppState) : AppState :=
  mkState (nodes s) (links s) (newNode s) value
          (filterStatus s) (filterStarred s) (filterTeam s) (teamOption s)
          (selectedPerson s) (childName s) (childStatus s) (childStarred s).

Definition setFilterTeam (value : string) (s : AppState) : AppState :=
  mkState (nodes s) (links s) (newNode s) (connection s)
          (filterStatus s) (filterStarred s) value (teamOption s)
          (selectedPerson s) (childName s) (childStatus s) (childStarred s).

Definition setFilterStarred (checked : bool) (s : AppState) : AppState :=
  mkState (nodes s) (links s) (newNode s) (connection s)
          (filterStatus s) checked (filterTeam s) (teamOption s)
          (selectedPerson s) (childName s) (childStatus s) (childStarred s).

Definition setChildName (value : string) (s : AppState) : AppState :=
  mkState (nodes s) (links s) (newNode s) (connection s)
          (filterStatus s) (filterStarred s) (filterTeam s) (teamOption s)
          (selectedPerson s) value (childStatus s) (childStarred s).

Definition setChildStatus (value : string) (s : AppState) : AppState :=
  mkState (nodes s) (links s) (newNode s) (connection s)
          (filterStatus s) (filterStarred s) (filterTeam s) (teamOption s)
          (selectedPerson s) (childName s) value (childStarred s).

Definition setChildStarred (checked : bool) (s : AppState) : AppState :=
  mkState (nodes s) (links s) (newNode s) (connection s)
          (filterStatus s) (filterStarred s) (filterTeam s) (teamOption s)
          (selectedPerson s) (childName s) (childStatus s) checked.

(** A handler of a control of the modal. *)
Definition inModal (f : AppState -> AppState) (s : AppState) : AppState :=
  match selectedPerson s with
  | Some _ => f s
  | None => s
  end.

Inductive Event : Type :=
(* the top form *)
| TypeName (value : string)
| ChooseTeam (val : string)
| TypeNewTeam (text : string)
| ChooseStatus (value : string)
| CheckStarred (checked : bool)
| ChooseConnection (value : string)
| ClickAddPerson
(* the filters; a click on a tile of the statistics chooses its status *)
| ChooseFilterStatus (value : string)
| TypeFilterTeam (value : string)
| CheckFilterStarred (checked : bool)
(* the graph *)
| ClickNode (nodeId : string)
| DragNode (nodeId : string) (px py : float)
(* the modal; a click on its backdrop is a click on Cancel *)
| EditSelected (e : Edit)
| ClickCancel
| TypeChildName (value : string)
| ChooseChildStatus (value : string)
| CheckChildStarred (checked : bool)
| ClickSave (resolved : bool)
| ClickDelete
| ClickAddChild.

Definition handle (e : Event) (s : AppState) : AppState :=
  match e with
  | TypeName value => onNameChange value s
  | ChooseTeam val => onTeamOptionChange val s
  | TypeNewTeam text => onNewTeamChange text s
  | ChooseStatus value => onStatusChange value s
  | CheckStarred checked => onStarredChange checked s
  | ChooseConnection value => setConnection value s
  | ClickAddPerson => fst (addNode s)
  | ChooseFilterStatus value => setFilterStatus value s
  | TypeFilterTeam value => setFilterTeam value s
  | CheckFilterStarred checked => setFilterStarred checked s
  | ClickNode nodeId => onNodeClick nodeId s
  | DragNode nodeId px py => onNodeDragStop nodeId px py s
  | EditSelected e => onEdit e s
  | ClickCancel => inModal (setSelectedPerson None) s
  | TypeChildName value => inModal (setChildName value) s
  | ChooseChildStatus value => inModal (setChildStatus value) s
  | CheckChildStarred checked => inModal (setChildStarred checked) s
  | ClickSave resolved => fst (updatePersonWith resolved s)
  | ClickDelete => fst (deletePerson s)
  | ClickAddChild => fst (addChildPerson s)
  end.

(** A session: the events are handled from left to right. *)
Definition session (events : list Event) (s : AppState) : AppState :=
  fold_left (fun st e => handle e st) events s.

(** Whether an event, handled in [s], appends a person. *)
Definition addsPerson (e : Event) (s : AppState) : bool :=
  match e with
  | ClickAddPerson => Js.truthy (NewNodeInput.name (newNode s))
  | ClickAddChild =>
      match selectedPerson s with
      | Some _ => Js.truthy (childName s)
      | None => false
      end
  | _ => false
  end.

(** Every event of the session that appends a person does so in a state
    where the id it assigns is not in use. *)
Fixpoint freshAdds (events : list Event) (s : AppState) : Prop :=
  match events with
  | [] => True
  | e :: rest =>
      (addsPerson e s = true -> ~ In (next_id s) (ids s))
      /\ freshAdds rest (handle e s)
  end.

(** The document of three persons of the cascading-delete scenario, with
    nothing selected and the forms untouched. *)
Definition threePersons : AppState :=
  idle [plain "1" "" None None; plain "2" "" None None;
        plain "3" "" None None]
       [Link.mk "1" "2"; Link.mk "2" "3"].



(* ================================================================== *)
(** * Properties *)

(** ** Strings, lists and maps *)

Lemma truthy_true (s : string) : Js.truthy s = true <-> s <> "".
Proof.
  unfold Js.truthy. rewrite negb_true_iff. split.
  - intros H E. apply String.eqb_eq in E. congruence.
  - intros H. apply String.eqb_neq. exact H.
Qed.

Lemma truthy_false (s : string) : Js.truthy s = false <-> s = "".
Proof.
  unfold Js.truthy. rewrite negb_false_iff. apply String.eqb_eq.
Qed.

Lemma kept_filter {A : Type} (f : A -> bool) (P : A -> Prop) (l : list A) :
  (forall a, f a = true <-> P a) -> kept P l (filter f l).
Proof.
  intros Hf. induction l as [|a l IH]; simpl.
  - constructor.
  - destruct (f a) eqn:E.
    + apply kept_keep; [apply Hf; exact E | exact IH].
    + apply kept_drop; [| exact IH].
      intros HP. apply Hf in HP. congruence.
Qed.

Lemma kept_In {A : Type} (P : A -> Prop) (l l' : list A) :
  kept P l l' -> forall a, In a l' <-> In a l /\ P a.
Proof.
  induction 1 as [|a l l' Pa _ IH|a l l' nPa _ IH]; intros b; simpl.
  - tauto.
  - rewrite IH. split.
    + intros [->|[Hb Pb]]; auto.
    + intros [[->|Hb] Pb]; auto.
  - rewrite IH. split.
    + intros [Hb Pb]; auto.
    + intros [[->|Hb] Pb]; [contradiction | auto].
Qed.

Lemma set_has_In (ks : Js.JsSet) (k : string) :
  Js.set_has ks k = true <-> In k ks.
Proof.
  unfold Js.set_has. rewrite existsb_exists. split.
  - intros [k' [Hin E]]. apply String.eqb_eq in E. subst. exact Hin.
  - intros Hin. exists k. split; [exact Hin | apply String.eqb_refl].
Qed.

(** ** Graph repository *)

Section Repository.

Variable s : AppState.

(** C8. [addNode] with an empty name returns at once: the state, and with
    it both [nodes] and [links], is the one before the call, whatever the
    other fields of the form and the connection are, and nothing is saved. *)
Theorem addNode_empty_name_noop :
  NewNodeInput.name (newNode s) = "" ->
  addNode s = (s, None)
  /\ nodes (fst (addNode s)) = nodes s
  /\ links (fst (addNode s)) = links s.
Proof.
  intros Hname. unfold addNode. rewrite Hname. simpl. auto.
Qed.

(** C4. With a non-empty name, [addNode] appends to the nodes one person
    whose id is the decimal string of (node count + 1), whose name, status,
    star and team are those of the form and whose notes are empty; it
    appends the single link (connection, new id) when the connection is
    non-empty and no link otherwise; the earlier nodes and links are a
    prefix of the new ones; the new document is what is saved. *)
Theorem addNode_appends :
  NewNodeInput.name (newNode s) <> "" ->
  let id := Js.toString (List.length (nodes s) + 1) in
  let s' := fst (addNode s) in
  nodes s' =
    nodes s ++ [Person.mk id (NewNodeInput.name (newNode s))
                          (NewNodeInput.status (newNode s))
                          (NewNodeInput.starred (newNode s))
                          (NewNodeInput.team (newNode s)) "" None None]
  /\ (connection s <> "" ->
      links s' = links s ++ [Link.mk (connection s) id])
  /\ (connection s = "" -> links s' = links s)
  /\ snd (addNode s) = Some (DataStructure.mk (nodes s') (links s')).
Proof.
  intros Hname id s'. subst id s'. unfold addNode.
  apply truthy_true in Hname. rewrite Hname. simpl.
  repeat split.
  - intros Hc. apply truthy_true in Hc. rewrite Hc. reflexivity.
  - intros Hc. apply truthy_false in Hc. rewrite Hc. reflexivity.
Qed.

Variable sel : Person.t.
Hypothesis selected : selectedPerson s = Some sel.

(** C2. [deletePerson] takes out of the nodes exactly the persons whose id
    is the selected id and out of the links exactly those whose source or
    target is that id; every other person and link stays, in the same order
    and as often as before; the result is what is saved. *)
Theorem deletePerson_cascades :
  let s' := fst (deletePerson s) in
  kept (fun p => Person.id p <> Person.id sel) (nodes s) (nodes s')
  /\ kept (fun l => Link.source l <> Person.id sel
                    /\ Link.target l <> Person.id sel)
          (links s) (links s')
  /\ (forall p, In p (nodes s') <->
                In p (nodes s) /\ Person.id p <> Person.id sel)
  /\ (forall l, In l (links s') <->
                In l (links s) /\ Link.source l <> Person.id sel
                /\ Link.target l <> Person.id sel)
  /\ snd (deletePerson s) = Some (DataStructure.mk (nodes s') (links s')).
Proof.
  intros s'. subst s'. unfold deletePerson. rewrite selected. simpl.
  assert (Hn : kept (fun p => Person.id p <> Person.id sel) (nodes s)
                 (filter (fun n => negb (Person.id n =? Person.id sel))
                         (nodes s))).
  { apply kept_filter. intros a. rewrite negb_true_iff.
    apply String.eqb_neq. }
  assert (Hl : kept (fun l => Link.source l <> Person.id sel
                              /\ Link.target l <> Person.id sel) (links s)
                 (filter (fun l => negb (Link.source l =? Person.id sel)
                                   && negb (Link.target l =? Person.id sel))
                         (links s))).
  { apply kept_filter. intros a.
    rewrite andb_true_iff, !negb_true_iff, !String.eqb_neq. tauto. }
  refine (conj Hn (conj Hl (conj (kept_In Hn) (conj _ eq_refl)))).
  intros l. rewrite (kept_In Hl l). tauto.
Qed.

(** C10. [updatePerson] puts the edited person in the place of every node
    that has its id and leaves the node at every other place as it was;
    the links are untouched; when no node has the edited id the node list
    is the one before the call. *)
Theorem updatePerson_frame :
  let s' := fst (updatePerson s) in
  Forall2 (fun old new =>
             (Person.id old = Person.id sel /\ new = sel)
             \/ (Person.id old <> Person.id sel /\ new = old))
          (nodes s) (nodes s')
  /\ links s' = links s
  /\ ((forall p, In p (nodes s) -> Person.id p <> Person.id sel) ->
      nodes s' = nodes s).
Proof.
  intros s'. subst s'. unfold updatePerson, updatePersonWith. rewrite selected. simpl.
  repeat split.
  - induction (nodes s) as [|a l IH]; simpl; constructor; auto.
    destruct (Person.id a =? Person.id sel) eqn:E.
    + left. apply String.eqb_eq in E. auto.
    + right. apply String.eqb_neq in E. auto.
  - intros Hno. induction (nodes s) as [|a l IH]; simpl; auto.
    rewrite IH by (intros p Hp; apply Hno; right; exact Hp).
    destruct (Person.id a =? Person.id sel) eqn:E; auto.
    apply String.eqb_eq in E. exfalso. apply (Hno a); simpl; auto.
Qed.

End Repository.

Lemma addNode_empty_name_noop_witness :
  NewNodeInput.name (newNode (typeName "" "2" scenario)) = ""
  /\ addNode (typeName "" "2" scenario) = (typeName "" "2" scenario, None).
Proof.
  split; [reflexivity |].
  exact (proj1 (addNode_empty_name_noop (typeName "" "2" scenario) eq_refl)).
Defined.

Lemma addNode_appends_witness :
  nodes (fst (addNode (typeName "Dana" "2" scenario))) =
    nodes scenario ++ [Person.mk "4" "Dana" "To do" false "" "" None None]
  /\ links (fst (addNode (typeName "Dana" "2" scenario))) =
       links scenario ++ [Link.mk "2" "4"].
Proof.
  assert (Hname : NewNodeInput.name (newNode (typeName "Dana" "2" scenario))
                  <> "") by discriminate.
  destruct (addNode_appends (typeName "Dana" "2" scenario) Hname)
    as [Hn [Hl _]].
  split; [exact Hn | apply Hl; discriminate].
Defined.

Lemma deletePerson_cascades_witness :
  selectedPerson scenario = Some (plain "2" "" None None)
  /\ kept (fun p => Person.id p <> "2")
          (nodes scenario) (nodes (fst (deletePerson scenario)))
  /\ kept (fun l => Link.source l <> "2" /\ Link.target l <> "2")
          (links scenario) (links (fst (deletePerson scenario))).
Proof.
  split; [reflexivity |].
  destruct (deletePerson_cascades scenario eq_refl) as [Hn [Hl _]].
  split; [exact Hn | exact Hl].
Defined.

Lemma updatePerson_frame_witness :
  selectedPerson scenario = Some (plain "2" "" None None)
  /\ links (fst (updatePerson scenario)) = links scenario.
Proof.
  split; [reflexivity |].
  exact (proj1 (proj2 (updatePerson_frame scenario eq_refl))).
Defined.

(** The cascading-delete scenario of the specification: deleting "2" from
    persons 1, 2, 3 with links 1-2 and 2-3 leaves persons 1 and 3 and no
    link. *)
Example deletePerson_scenario :
  ids (fst (deletePerson scenario)) = ["1"; "3"]
  /\ links (fst (deletePerson scenario)) = [].
Proof. split; reflexivity. Qed.

(** [addChildPerson] with a selected parent and a non-empty child name
    appends one person, with the next id, the fields of the child form, an
    empty team and empty notes, and appends the link (parent id, new id); the
    new document is what is saved. *)
Theorem addChildPerson_appends (s : AppState) (parent : Person.t) :
  selectedPerson s = Some parent ->
  childName s <> "" ->
  let id := Js.toString (List.length (nodes s) + 1) in
  let s' := fst (addChildPerson s) in
  nodes s' =
    nodes s ++ [Person.mk id (childName s) (childStatus s) (childStarred s)
                          "" "" None None]
  /\ links s' = links s ++ [Link.mk (Person.id parent) id]
  /\ snd (addChildPerson s) = Some (DataStructure.mk (nodes s') (links s')).
Proof.
  intros Hsel Hname id s'. subst id s'. unfold addChildPerson.
  rewrite Hsel. apply truthy_true in Hname. rewrite Hname. simpl.
  repeat split.
Qed.

Lemma addChildPerson_appends_witness :
  let s := mkState (nodes scenario) (links scenario) resetNewNode "" "" false
                   "" "" (selectedPerson scenario) "Kim" "Interview" true in
  nodes (fst (addChildPerson s)) =
    nodes scenario ++ [Person.mk "4" "Kim" "Interview" true "" "" None None]
  /\ links (fst (addChildPerson s)) = links scenario ++ [Link.mk "2" "4"].
Proof.
  cbv zeta.
  assert (Hname : "Kim" <> "") by discriminate.
  destruct (@addChildPerson_appends
              (mkState (nodes scenario) (links scenario) resetNewNode "" ""
                       false "" "" (selectedPerson scenario)
                       "Kim" "Interview" true)
              (plain "2" "" None None) eq_refl Hname) as [Hn [Hl _]].
  split; [exact Hn | exact Hl].
Defined.

(** ** Filter engine *)

(** C5. The visible nodes are exactly the nodes that pass the three filters
    (status filter empty or equal to the node's status, starred filter off or
    the node starred, team filter empty or equal to the node's team as a
    string), and the visible links are exactly the links whose source and
    target are both ids of visible nodes; in both lists the order and the
    repetitions of the document are retained. *)
Theorem filter_engine (s : AppState) :
  let passes := fun n =>
    (filterStatus s = "" \/ Person.status n = filterStatus s)
    /\ (filterStarred s = false \/ Person.starred n = true)
    /\ (filterTeam s = "" \/ Person.team n = filterTeam s) in
  let visible := fun l =>
    In (Link.source l) (map Person.id (filteredNodes s))
    /\ In (Link.target l) (map Person.id (filteredNodes s)) in
  kept passes (nodes s) (filteredNodes s)
  /\ kept visible (links s) (filteredLinks s)
  /\ (forall n, In n (filteredNodes s) <-> In n (nodes s) /\ passes n)
  /\ (forall l, In l (filteredLinks s) <-> In l (links s) /\ visible l).
Proof.
  intros passes visible.
  assert (Hn : kept passes (nodes s) (filteredNodes s)).
  { apply kept_filter. intros n. unfold nodePasses, passes.
    rewrite !andb_true_iff.
    assert (Hs : (if Js.truthy (filterStatus s)
                  then Person.status n =? filterStatus s else true) = true
                 <-> filterStatus s = "" \/ Person.status n = filterStatus s).
    { destruct (Js.truthy (filterStatus s)) eqn:E.
      - apply truthy_true in E. rewrite String.eqb_eq. tauto.
      - apply truthy_false in E. tauto. }
    assert (Hb : (if filterStarred s
                  then Bool.eqb (Person.starred n) true else true) = true
                 <-> filterStarred s = false \/ Person.starred n = true).
    { destruct (filterStarred s), (Person.starred n); simpl;
        intuition congruence. }
    assert (Ht : (if Js.truthy (filterTeam s)
                  then Person.team n =? filterTeam s else true) = true
                 <-> filterTeam s = "" \/ Person.team n = filterTeam s).
    { destruct (Js.truthy (filterTeam s)) eqn:E.
      - apply truthy_true in E. rewrite String.eqb_eq. tauto.
      - apply truthy_false in E. tauto. }
    tauto. }
  assert (Hl : kept visible (links s) (filteredLinks s)).
  { apply kept_filter. intros l. unfold visible, filteredNodeIds.
    rewrite andb_true_iff, !set_has_In. tauto. }
  exact (conj Hn (conj Hl (conj (kept_In Hn) (kept_In Hl)))).
Qed.

(** The filter-composition example of the specification: with the filters
    (Interview, starred, Eng), of two Interview/Eng persons only the starred
    one is visible. *)
Example filter_composition :
  let p1 := Person.mk "1" "a" "Interview" true "Eng" "" None None in
  let p2 := Person.mk "2" "b" "Interview" false "Eng" "" None None in
  filteredNodes
    (mkState [p1; p2] [] resetNewNode "" "Interview" true "Eng" "" None
             "" "To do" false) = [p1].
Proof. reflexivity. Qed.

(** ** Persistence gateway *)

Section Gateway.

Variable JSON_stringify : Api.json -> nat -> string.
Variable JSON_parse : string -> option Api.json.



(** Before the first save, [load] answers with the empty document. *)
Lemma load_fresh :
  Api.load JSON_stringify JSON_parse None
  = Api.respond_json 200
      (Api.JObject [("nodes", Api.JArray []); ("links", Api.JArray [])]).
Proof. reflexivity. Qed.

(** A request that is neither a GET nor a POST is answered 405 with no
    body, and the file is left as it is. *)
Theorem handler_method_not_allowed (req : Api.NextApiRequest)
                                   (file : Api.DataFile) :
  Api.method req <> "GET" -> Api.method req <> "POST" ->
  Api.handler JSON_stringify JSON_parse req file = (file, Api.respond_end 405).
Proof.
  intros Hget Hpost. unfold Api.handler.
  apply String.eqb_neq in Hget, Hpost. rewrite Hget, Hpost. reflexivity.
Qed.

(** A GET never writes the file. *)
Theorem handler_get_reads_only (body : Api.json) (file : Api.DataFile) :
  fst (Api.handler JSON_stringify JSON_parse (Api.mkRequest "GET" body) file)
  = file.
Proof.
  unfold Api.handler. simpl.
  destruct file as [data|]; [destruct (JSON_parse data) |]; reflexivity.
Qed.

End Gateway.


Lemma handler_method_not_allowed_witness :
  Api.handler stringify_empty parse_empty
              (Api.mkRequest "DELETE" Api.JNull) (Some "{}")
  = (Some "{}", Api.respond_end 405).
Proof.
  assert (Hget : "DELETE" <> "GET") by discriminate.
  assert (Hpost : "DELETE" <> "POST") by discriminate.
  exact (@handler_method_not_allowed stringify_empty parse_empty
           (Api.mkRequest "DELETE" Api.JNull) (Some "{}") Hget Hpost).
Defined.

(** ** Uniqueness of person ids *)

Lemma toString_inj (n m : nat) : Js.toString n = Js.toString m -> n = m.
Proof.
  unfold Js.toString. intros H.
  apply Unsigned.to_uint_inj.
  assert (E : NilEmpty.uint_of_string (NilEmpty.string_of_uint (Nat.to_uint n))
              = NilEmpty.uint_of_string
                  (NilEmpty.string_of_uint (Nat.to_uint m)))
    by (rewrite H; reflexivity).
  rewrite !NilEmpty.usu in E. congruence.
Qed.

Lemma NoDup_snoc {A : Type} (l : list A) (a : A) :
  NoDup l -> ~ In a l -> NoDup (l ++ [a]).
Proof.
  intros Hl Ha. induction Hl as [|b l Hb Hl IH]; simpl.
  - constructor; [intros [] | constructor].
  - constructor.
    + rewrite in_app_iff. simpl. intros [H|[H|[]]]; [contradiction |].
      subst. apply Ha. left. reflexivity.
    + apply IH. intros H. apply Ha. right. exact H.
Qed.

Section IdsOfSteps.

Variable s : AppState.

Lemma ids_addNode :
  ids (fst (addNode s)) =
    if appends AddPerson s then ids s ++ [next_id s] else ids s.
Proof.
  unfold addNode, appends, ids, next_id.
  destruct (Js.truthy (NewNodeInput.name (newNode s))); simpl;
    [rewrite map_app |]; reflexivity.
Qed.

Lemma ids_addChildPerson :
  ids (fst (addChildPerson s)) =
    if appends AddChildPerson s then ids s ++ [next_id s] else ids s.
Proof.
  unfold addChildPerson, appends, ids, next_id.
  destruct (selectedPerson s); [| reflexivity].
  destruct (Js.truthy (childName s)); simpl;
    [rewrite map_app |]; reflexivity.
Qed.

Lemma ids_updatePerson : ids (fst (updatePerson s)) = ids s.
Proof.
  unfold updatePerson, updatePersonWith, ids.
  destruct (selectedPerson s) as [sel|]; [| reflexivity]. simpl.
  rewrite map_map. apply map_ext_in. intros a _.
  destruct (Person.id a =? Person.id sel) eqn:E; [| reflexivity].
  apply String.eqb_eq in E. congruence.
Qed.

Lemma ids_deletePerson :
  ids (fst (deletePerson s)) =
    match selectedPerson s with
    | Some sel => filter (fun i => negb (i =? Person.id sel)) (ids s)
    | None => ids s
    end.
Proof.
  unfold deletePerson, ids.
  destruct (selectedPerson s) as [sel|]; [| reflexivity]. simpl.
  induction (nodes s) as [|a l IH]; simpl; [reflexivity |].
  destruct (Person.id a =? Person.id sel); simpl; rewrite IH; reflexivity.
Qed.

(** One action keeps the ids distinct when, if it appends a person, the
    id it assigns is not in use. *)
Lemma step_NoDup (a : Action) :
  NoDup (ids s) ->
  (appends a s = true -> ~ In (next_id s) (ids s)) ->
  NoDup (ids (step a s)).
Proof.
  intros Hnd Hfresh. destruct a; unfold step.
  - rewrite ids_addNode. destruct (appends AddPerson s); [| exact Hnd].
    apply NoDup_snoc; auto.
  - rewrite ids_updatePerson. exact Hnd.
  - rewrite ids_addChildPerson.
    destruct (appends AddChildPerson s); [| exact Hnd].
    apply NoDup_snoc; auto.
  - rewrite ids_deletePerson. destruct (selectedPerson s); [| exact Hnd].
    apply NoDup_filter. exact Hnd.
Qed.

End IdsOfSteps.

Lemma sequential_fresh (s : AppState) :
  sequential s -> ~ In (next_id s) (ids s).
Proof.
  unfold sequential, next_id. intros Hs. rewrite Hs, in_map_iff.
  intros [k [Hk Hin]]. apply toString_inj in Hk. apply in_seq in Hin. lia.
Qed.

Lemma sequential_NoDup (s : AppState) : sequential s -> NoDup (ids s).
Proof.
  unfold sequential. intros ->.
  apply Injective_map_NoDup; [| apply seq_NoDup].
  intros a b. apply toString_inj.
Qed.

Lemma sequential_snoc (s s' : AppState) :
  sequential s -> ids s' = ids s ++ [next_id s] -> sequential s'.
Proof.
  unfold sequential, next_id. intros Hs Hs'.
  assert (Hlen : List.length (nodes s') = S (List.length (nodes s))).
  { unfold ids in Hs'. apply (f_equal (@List.length string)) in Hs'.
    rewrite length_app, !length_map in Hs'. simpl in Hs'. lia. }
  rewrite Hs', Hlen, seq_S, map_app, Hs. simpl.
  replace (List.length (nodes s) + 1) with (1 + List.length (nodes s)) by lia.
  reflexivity.
Qed.

Lemma sequential_same (s s' : AppState) :
  sequential s -> ids s' = ids s -> sequential s'.
Proof.
  unfold sequential. intros Hs Hs'.
  assert (Hlen : List.length (nodes s') = List.length (nodes s)).
  { unfold ids in Hs'. apply (f_equal (@List.length string)) in Hs'.
    rewrite !length_map in Hs'. exact Hs'. }
  rewrite Hs', Hlen. exact Hs.
Qed.

(** ** Insertion-ordered maps *)

Section MapFacts.

Variable V : Type.
Implicit Types (m : Js.JsMap V) (k : string) (v : V).

Lemma map_has_In m k : Js.map_has m k = true <-> In k (Js.map_keys m).
Proof.
  unfold Js.map_has. induction m as [|[k' v'] m IH]; simpl.
  - split; [discriminate | tauto].
  - destruct (k' =? k) eqn:E.
    + apply String.eqb_eq in E. tauto.
    + apply String.eqb_neq in E. rewrite IH. tauto.
Qed.

Lemma map_has_get m k :
  Js.map_has m k = true -> exists v, Js.map_get m k = Some v.
Proof.
  unfold Js.map_has. destruct (Js.map_get m k) as [v|];
    [eauto | discriminate].
Qed.

Lemma map_get_In m k v : Js.map_get m k = Some v -> In (k, v) m.
Proof.
  induction m as [|[k' v'] m IH]; simpl; [discriminate |].
  destruct (k' =? k) eqn:E.
  - apply String.eqb_eq in E. intros [= ->]. subst. auto.
  - auto.
Qed.

(** [set] on a new key appends the entry. *)
Lemma map_set_new m k v :
  Js.map_has m k = false -> Js.map_set m k v = m ++ [(k, v)].
Proof.
  unfold Js.map_has. induction m as [|[k' v'] m IH]; simpl; [reflexivity |].
  destruct (k' =? k); [discriminate |].
  intros H. rewrite IH by exact H. reflexivity.
Qed.

(** [set] never changes the keys that were there, nor their order. *)
Lemma map_set_keys m k v :
  Js.map_keys (Js.map_set m k v) =
    if Js.map_has m k then Js.map_keys m else Js.map_keys m ++ [k].
Proof.
  unfold Js.map_has. induction m as [|[k' v'] m IH]; simpl; [reflexivity |].
  destruct (k' =? k); simpl; [reflexivity |].
  rewrite IH. destruct (Js.map_get m k); reflexivity.
Qed.

Lemma map_set_In_keys m k v k' :
  In k' (Js.map_keys (Js.map_set m k v)) <-> k' = k \/ In k' (Js.map_keys m).
Proof.
  rewrite map_set_keys. destruct (Js.map_has m k) eqn:E.
  - apply map_has_In in E. split; [tauto | intros [->|H]; assumption].
  - rewrite in_app_iff. simpl. intuition congruence.
Qed.

Lemma map_get_set_same m k v : Js.map_get (Js.map_set m k v) k = Some v.
Proof.
  induction m as [|[k' v'] m IH]; simpl.
  - rewrite String.eqb_refl. reflexivity.
  - destruct (k' =? k) eqn:E; simpl; rewrite E; [reflexivity | exact IH].
Qed.

End MapFacts.

Lemma mapi_from_nth {A B : Type} (f : A -> nat -> B) (l : list A) :
  forall i k,
    nth_error (Js.mapi_from f i l) k =
      option_map (fun a => f a (i + k)) (nth_error l k).
Proof.
  induction l as [|a l IH]; intros i [|k]; simpl; try reflexivity.
  - rewrite Nat.add_0_r. reflexivity.
  - rewrite IH. replace (S i + k) with (i + S k) by lia. reflexivity.
Qed.

Lemma mapi_nth {A B : Type} (f : A -> nat -> B) (l : list A) (k : nat) :
  nth_error (Js.mapi f l) k = option_map (fun a => f a k) (nth_error l k).
Proof. unfold Js.mapi. rewrite mapi_from_nth. reflexivity. Qed.

Lemma mapi_from_length {A B : Type} (f : A -> nat -> B) (l : list A) :
  forall i, List.length (Js.mapi_from f i l) = List.length l.
Proof. induction l; intros i; simpl; [| rewrite IHl]; reflexivity. Qed.

Lemma filter_filter {A : Type} (f g : A -> bool) (l : list A) :
  filter f (filter g l) = filter (fun a => g a && f a) l.
Proof.
  induction l as [|a l IH]; simpl; [reflexivity |].
  destruct (g a); simpl; [destruct (f a) |]; rewrite IH; reflexivity.
Qed.

Lemma filter_all {A : Type} (f : A -> bool) (l : list A) :
  (forall a, f a = true) -> filter f l = l.
Proof.
  intros H. induction l as [|a l IH]; simpl; [| rewrite H, IH]; reflexivity.
Qed.

(** ** The distinct teams, first seen first *)

Lemma distinct_In (l : list string) (a : string) :
  In a (distinct l) <-> In a l.
Proof.
  induction l as [|b l IH]; simpl; [tauto |].
  rewrite filter_In, IH, negb_true_iff, String.eqb_neq.
  destruct (String.eqb_spec a b); split; intuition congruence.
Qed.

Lemma distinct_NoDup (l : list string) : NoDup (distinct l).
Proof.
  induction l as [|b l IH]; simpl; constructor.
  - rewrite filter_In, String.eqb_refl. simpl. intros [_ H]. discriminate.
  - apply NoDup_filter. exact IH.
Qed.

(** A list without repetition is its own list of distinct elements. *)
Lemma distinct_of_NoDup (l : list string) : NoDup l -> distinct l = l.
Proof.
  induction 1 as [|b l Hb _ IH]; simpl; [reflexivity |].
  rewrite IH. f_equal. apply forallb_filter_id, forallb_forall.
  intros a Ha. rewrite negb_true_iff, String.eqb_neq. congruence.
Qed.

Lemma teamNodesMap_fold (l : list Person.t) :
  forall m : Js.JsMap TeamNode.t,
    fold_left teamNodesMap_step l m =
      m ++ map teamEntry
               (filter (fun t => negb (Js.set_has (Js.map_keys m) t))
                       (distinctTeams l)).
Proof.
  unfold distinctTeams.
  induction l as [|a l IH]; intros m; simpl.
  - rewrite app_nil_r. reflexivity.
  - rewrite IH. unfold teamNodesMap_step.
    destruct (Js.truthy (Person.team a)) eqn:Et; simpl; [| reflexivity].
    assert (Hhas : Js.set_has (Js.map_keys m) (Person.team a)
                   = Js.map_has m (Person.team a)).
    { apply eq_true_iff_eq. rewrite set_has_In, map_has_In. tauto. }
    rewrite Hhas, filter_filter.
    destruct (Js.map_has m (Person.team a)) eqn:Eh; simpl.
    + f_equal. f_equal. apply filter_ext_in. intros t _.
      destruct (t =? Person.team a) eqn:E; simpl; [| reflexivity].
      apply String.eqb_eq in E. subst t. rewrite Hhas. reflexivity.
    + rewrite map_set_new by exact Eh. rewrite <- app_assoc. simpl.
      f_equal. f_equal. f_equal. apply filter_ext. intros t.
      unfold Js.map_keys, Js.set_has.
      rewrite map_app, existsb_app. simpl.
      rewrite orb_false_r, negb_orb, andb_comm. reflexivity.
Qed.

(** The team map holds the distinct non-empty teams of the visible persons
    in first-seen order, each with the team node made for it. *)
Lemma teamNodesMap_distinct (s : AppState) :
  teamNodesMap s = map teamEntry (distinctTeams (filteredNodes s)).
Proof.
  unfold teamNodesMap. rewrite teamNodesMap_fold. simpl.
  rewrite filter_all by reflexivity. reflexivity.
Qed.

Lemma teamNodesArray_distinct (s : AppState) :
  teamNodesArray s =
    map (fun name => TeamNode.mk (team_id name) name)
        (distinctTeams (filteredNodes s)).
Proof.
  unfold teamNodesArray, Js.map_values.
  rewrite teamNodesMap_distinct, map_map. reflexivity.
Qed.

(** ** The grid of team nodes *)

Lemma index_or_zero_yPositions (row : nat) :
  index_or_zero yPositions row = nth row [50; 450; 850]%Z 0%Z.
Proof.
  unfold index_or_zero, yPositions.
  destruct row as [|[|[|[|row]]]]; reflexivity.
Qed.

Lemma pinnedTeamNodes_length (s : AppState) :
  List.length (pinnedTeamNodes s)
  = List.length (distinctTeams (filteredNodes s)).
Proof.
  unfold pinnedTeamNodes, Js.mapi.
  rewrite mapi_from_length, teamNodesArray_distinct, length_map. reflexivity.
Qed.

(** The pinned node made for the k-th distinct visible team. *)
Lemma pinnedTeamNodes_nth (s : AppState) (k : nat) (name : string) :
  nth_error (distinctTeams (filteredNodes s)) k = Some name ->
  nth_error (pinnedTeamNodes s) k
  = Some (pinTeamNode (TeamNode.mk (team_id name) name) k).
Proof.
  intros Hk. unfold pinnedTeamNodes.
  rewrite mapi_nth, teamNodesArray_distinct, nth_error_map, Hk. reflexivity.
Qed.

(** C7. The k-th distinct visible team (from 0, first seen first) gets the
    k-th pinned node, with fx = ((k mod 3) + 1) * 800 and fy the entry of
    [50, 450, 850] at row k / 3; the lookup has a value at every row, and
    from the fourth row on (k >= 9) fy is 0. *)
Theorem pinned_grid (s : AppState) (k : nat) (name : string) :
  nth_error (distinctTeams (filteredNodes s)) k = Some name ->
  exists node,
    nth_error (pinnedTeamNodes s) k = Some node
    /\ PinnedTeamNode.id node = String.append "team_" name
    /\ PinnedTeamNode.label node = name
    /\ PinnedTeamNode.fx node = ((Z.of_nat (k mod 3) + 1) * 800)%Z
    /\ PinnedTeamNode.fy node = nth (k / 3) [50; 450; 850]%Z 0%Z
    /\ (9 <= k -> PinnedTeamNode.fy node = 0%Z).
Proof.
  intros Hk. eexists. split; [apply pinnedTeamNodes_nth; exact Hk |].
  unfold pinTeamNode, TEAMS_IN_A_ROW. cbn [PinnedTeamNode.id
    PinnedTeamNode.label PinnedTeamNode.fx PinnedTeamNode.fy TeamNode.id
    TeamNode.label].
  rewrite index_or_zero_yPositions.
  split; [reflexivity |]. split; [reflexivity |]. split; [reflexivity |].
  split; [reflexivity |].
  intros H9.
  assert (Hrow : 3 <= k / 3) by (apply Nat.div_le_lower_bound; lia).
  apply nth_overflow. simpl. exact Hrow.
Qed.

Lemma pinned_grid_witness :
  let s := idle (map (fun t => plain t t None None)
                     ["a"; "b"; "c"; "d"; "a"; "e"; "f"; "g"; "h"; "i"; "j"])
                [] in
  nth_error (distinctTeams (filteredNodes s)) 9 = Some "j"
  /\ exists node,
       nth_error (pinnedTeamNodes s) 9 = Some node
       /\ PinnedTeamNode.id node = "team_j"
       /\ PinnedTeamNode.label node = "j"
       /\ PinnedTeamNode.fx node = 800%Z
       /\ PinnedTeamNode.fy node = 0%Z
       /\ (9 <= 9 -> PinnedTeamNode.fy node = 0%Z).
Proof.
  split; [reflexivity |].
  exact (@pinned_grid
           (idle (map (fun t => plain t t None None)
                      ["a"; "b"; "c"; "d"; "a"; "e"; "f"; "g"; "h"; "i"; "j"])
                 [])
           9 "j" eq_refl).
Defined.

(** The first two rows of the grid, on six teams. *)
Example pinned_grid_two_rows :
  map (fun n => (PinnedTeamNode.label n,
                 PinnedTeamNode.fx n, PinnedTeamNode.fy n))
      (pinnedTeamNodes
         (idle (map (fun t => plain t t None None)
                    ["a"; "b"; "a"; "c"; "d"; "b"; "e"; "f"])
               []))
  = [ ("a", 800, 50); ("b", 1600, 50); ("c", 2400, 50);
      ("d", 800, 450); ("e", 1600, 450); ("f", 2400, 450) ]%Z.
Proof. reflexivity. Qed.

(** ** Membership links *)

Lemma teamLinks_fold (l : list Person.t) :
  forall acc,
    fold_left teamLinks_step l acc =
      acc ++ map (fun n => Link.mk (team_id (Person.team n)) (Person.id n))
                 (filter (fun n => Js.truthy (Person.team n)) l).
Proof.
  induction l as [|a l IH]; intros acc; simpl.
  - rewrite app_nil_r. reflexivity.
  - rewrite IH. unfold teamLinks_step.
    destruct (Js.truthy (Person.team a)); simpl;
      [rewrite <- app_assoc |]; reflexivity.
Qed.

(** There is one membership link per visible person with a non-empty team,
    from the node of the team to the person, in the order of the visible
    persons. *)
Theorem teamLinks_members (s : AppState) :
  teamLinks s =
    map (fun n => Link.mk (String.append "team_" (Person.team n)) (Person.id n))
        (filter (fun n => negb (Person.team n =? "")) (filteredNodes s)).
Proof. unfold teamLinks. rewrite teamLinks_fold. reflexivity. Qed.

(** ** The two passes of the person layout *)

Lemma map_get_set_other {V : Type} (m : Js.JsMap V) (k k' : string) (v : V) :
  k' <> k -> Js.map_get (Js.map_set m k v) k' = Js.map_get m k'.
Proof.
  intros Hk. induction m as [|[k0 v0] m IH]; simpl.
  - destruct (String.eqb_spec k k'); [congruence | reflexivity].
  - destruct (String.eqb_spec k0 k) as [->|Hk0]; simpl.
    + destruct (String.eqb_spec k k'); [congruence | reflexivity].
    + rewrite IH. reflexivity.
Qed.

Section FirstPass.

Variable positions : Js.JsMap Point.t.

Lemma group_step_free g tg a :
  hasTeamPosition positions a = false ->
  group_step positions (Some (g, tg)) a = Some (g ++ [freeNode a], tg).
Proof.
  unfold group_step, hasTeamPosition. simpl. intros ->. reflexivity.
Qed.

Lemma group_step_team g tg a :
  hasTeamPosition positions a = true ->
  exists tg',
    group_step positions (Some (g, tg)) a = Some (g, tg')
    /\ membersOf tg' (Person.team a) = membersOf tg (Person.team a) ++ [a]
    /\ (forall k, k <> Person.team a -> membersOf tg' k = membersOf tg k)
    /\ (forall k, In k (Js.map_keys tg') <->
                  k = Person.team a \/ In k (Js.map_keys tg)).
Proof.
  unfold group_step, hasTeamPosition. simpl. intros ->.
  set (t := Person.team a).
  set (tg1 := if negb (Js.map_has tg t) then Js.map_set tg t [] else tg).
  assert (Hget : Js.map_get tg1 t = Some (membersOf tg t)).
  { unfold tg1, membersOf, Js.map_has.
    destruct (Js.map_get tg t) as [ms|] eqn:E; simpl.
    - exact E.
    - apply map_get_set_same. }
  assert (Hother : forall k, k <> t -> Js.map_get tg1 k = Js.map_get tg k).
  { intros k Hk. unfold tg1. destruct (negb (Js.map_has tg t));
      [apply map_get_set_other; exact Hk | reflexivity]. }
  assert (Hkeys : forall k, In k (Js.map_keys tg1) <->
                            k = t \/ In k (Js.map_keys tg)).
  { intros k. unfold tg1. destruct (Js.map_has tg t) eqn:E; simpl.
    - apply map_has_In in E. split; [tauto | intros [->|H]; assumption].
    - apply map_set_In_keys. }
  rewrite Hget. simpl. eexists. split; [reflexivity |].
  split; [| split].
  - unfold membersOf. rewrite map_get_set_same. reflexivity.
  - intros k Hk. unfold membersOf.
    rewrite map_get_set_other by exact Hk. rewrite Hother by exact Hk.
    reflexivity.
  - intros k. rewrite map_set_In_keys, Hkeys. tauto.
Qed.

(** The first pass never throws.  It pushes the persons without a team
    position in their order, each at its stored coordinates, and files
    every other person under its team. *)
Lemma first_pass (l : list Person.t) :
  forall g tg,
  exists tg',
    fold_left (group_step positions) l (Some (g, tg))
    = Some (g ++ map freeNode
                   (filter (fun n => negb (hasTeamPosition positions n)) l),
            tg')
    /\ (forall k, In k (Js.map_keys tg') ->
                  In k (Js.map_keys tg) \/ Js.map_has positions k = true)
    /\ (forall p, In p l -> hasTeamPosition positions p = true ->
                  In p (membersOf tg' (Person.team p)))
    /\ (forall k p, In p (membersOf tg k) -> In p (membersOf tg' k)).
Proof.
  induction l as [|a l IH]; intros g tg; cbn [fold_left filter map].
  - exists tg. rewrite app_nil_r. repeat split; auto. intros p [].
  - destruct (hasTeamPosition positions a) eqn:Ea; cbn [negb map].
    + destruct (group_step_team g tg a Ea)
        as [tg1 [Hstep [Hsame [Hother Hkeys]]]].
      rewrite Hstep.
      destruct (IH g tg1) as [tg' [Hfold [Hk [Hin Hmono]]]].
      exists tg'. split; [exact Hfold |]. split; [| split].
      * intros k Hk'. destruct (Hk k Hk') as [H1|H1]; [| auto].
        apply Hkeys in H1. destruct H1 as [->|H1]; [| auto].
        right. unfold hasTeamPosition in Ea.
        apply andb_true_iff in Ea. tauto.
      * intros p [->|Hp] Hc; [| auto].
        apply Hmono. rewrite Hsame, in_app_iff. simpl. auto.
      * intros k p Hp. apply Hmono.
        destruct (String.eqb_spec k (Person.team a)) as [->|Hne].
        -- rewrite Hsame, in_app_iff. auto.
        -- rewrite Hother by exact Hne. exact Hp.
    + rewrite group_step_free by exact Ea.
      destruct (IH (g ++ [freeNode a]) tg) as [tg' [Hfold [Hk [Hin Hmono]]]].
      exists tg'. rewrite Hfold, <- app_assoc. simpl.
      repeat split; auto.
      intros p [->|Hp] Hc; [congruence | auto].
Qed.

End FirstPass.

Section SecondPass.

Variables Math_cos Math_sin : float -> float.
Variable positions : Js.JsMap Point.t.

(** The second pass never throws when every team of the groups has a
    position; it pushes, after what is there, member [i] of a group of [n]
    at the [i]-th of [n] points around the position of the team. *)
Lemma second_pass (tg : Js.JsMap (list Person.t)) :
  forall g,
    (forall k, In k (Js.map_keys tg) -> Js.map_has positions k = true) ->
    exists circled,
      fold_left (circle_step Math_cos Math_sin positions) tg (Some g)
      = Some (g ++ circled)
      /\ (forall k ms teamPos i p,
             In (k, ms) tg -> Js.map_get positions k = Some teamPos ->
             nth_error ms i = Some p ->
             In (circleNode Math_cos Math_sin teamPos (List.length ms) p i)
                circled).
Proof.
  induction tg as [|[k0 ms0] tg IH]; intros g Hkeys; simpl.
  - exists []. rewrite app_nil_r. split; [reflexivity |].
    intros k ms teamPos i p [].
  - destruct (map_has_get positions k0) as [tp Htp].
    { apply Hkeys. simpl. auto. }
    rewrite Htp. simpl.
    destruct (IH (g ++ Js.mapi (circleNode Math_cos Math_sin tp
                                           (List.length ms0)) ms0))
      as [circled [Hfold Hin]].
    { intros k Hk. apply Hkeys. simpl. auto. }
    exists (Js.mapi (circleNode Math_cos Math_sin tp (List.length ms0)) ms0
            ++ circled).
    rewrite Hfold, <- app_assoc. split; [reflexivity |].
    intros k ms teamPos i p [Heq|Hin'] Hpos Hnth; rewrite in_app_iff.
    + injection Heq as -> ->. left.
      assert (teamPos = tp) by congruence. subst teamPos.
      apply (nth_error_In _ i). rewrite mapi_nth, Hnth. reflexivity.
    + right. eapply Hin; eauto.
Qed.

End SecondPass.

(** ** The positions of the teams *)

Lemma pinned_labels_from (l : list TeamNode.t) :
  forall i,
    map PinnedTeamNode.label (Js.mapi_from pinTeamNode i l)
    = map TeamNode.label l.
Proof.
  induction l as [|a l IH]; intros i; simpl; [| rewrite IH]; reflexivity.
Qed.

Lemma pinned_labels (s : AppState) :
  map PinnedTeamNode.label (pinnedTeamNodes s)
  = distinctTeams (filteredNodes s).
Proof.
  unfold pinnedTeamNodes, Js.mapi.
  rewrite pinned_labels_from, teamNodesArray_distinct, map_map. simpl.
  apply map_id.
Qed.

Lemma teamPositions_fold (l : list PinnedTeamNode.t) :
  forall m : Js.JsMap Point.t,
    NoDup (map PinnedTeamNode.label l) ->
    (forall k, In k (map PinnedTeamNode.label l) -> ~ In k (Js.map_keys m)) ->
    fold_left teamPositions_step l m = m ++ map positionEntry l.
Proof.
  induction l as [|a l IH]; intros m Hnd Hnew; simpl.
  - rewrite app_nil_r. reflexivity.
  - inversion Hnd as [|? ? Ha Hl]; subst.
    unfold teamPositions_step at 2. rewrite map_set_new.
    + rewrite IH; [rewrite <- app_assoc; reflexivity | exact Hl |].
      intros k Hk. unfold Js.map_keys. rewrite map_app, in_app_iff. simpl.
      intros [H|[H|[]]].
      * apply (Hnew k); [right; exact Hk | exact H].
      * subst k. contradiction.
    + destruct (Js.map_has m (PinnedTeamNode.label a)) eqn:E; [| reflexivity].
      apply map_has_In in E. exfalso.
      apply (Hnew (PinnedTeamNode.label a)); [left; reflexivity | exact E].
Qed.

(** [teamPositions] holds one entry per pinned team node, in their order. *)
Lemma teamPositions_entries (s : AppState) :
  teamPositions s = map positionEntry (pinnedTeamNodes s).
Proof.
  unfold teamPositions. rewrite teamPositions_fold; [reflexivity | |].
  - rewrite pinned_labels. apply distinct_NoDup.
  - intros k _ [].
Qed.

Lemma teamPositions_keys (s : AppState) :
  Js.map_keys (teamPositions s) = distinctTeams (filteredNodes s).
Proof.
  rewrite teamPositions_entries. unfold Js.map_keys.
  rewrite map_map. simpl. apply pinned_labels.
Qed.

Lemma map_get_entries (l : list PinnedTeamNode.t) :
  NoDup (map PinnedTeamNode.label l) ->
  forall k node,
    nth_error l k = Some node ->
    Js.map_get (map positionEntry l) (PinnedTeamNode.label node)
    = Some (Point.mk (PinnedTeamNode.fx node) (PinnedTeamNode.fy node)).
Proof.
  induction l as [|a l IH]; intros Hnd k node Hk.
  - destruct k; discriminate.
  - inversion Hnd as [|? ? Ha Hl]; subst. destruct k as [|k]; simpl in *.
    + injection Hk as ->. rewrite String.eqb_refl. reflexivity.
    + destruct (String.eqb_spec (PinnedTeamNode.label a)
                                (PinnedTeamNode.label node)) as [E|E].
      * exfalso. apply Ha. rewrite E. apply in_map.
        eapply nth_error_In. exact Hk.
      * eapply IH; eauto.
Qed.

(** The position of the k-th distinct visible team. *)
Lemma teamPositions_get (s : AppState) (k : nat) (name : string) :
  nth_error (distinctTeams (filteredNodes s)) k = Some name ->
  Js.map_get (teamPositions s) name
  = Some (Point.mk ((Z.of_nat (k mod 3) + 1) * 800)%Z
                   (nth (k / 3) [50; 450; 850]%Z 0%Z)).
Proof.
  intros Hk. rewrite teamPositions_entries.
  rewrite <- index_or_zero_yPositions.
  assert (Hnd : NoDup (map PinnedTeamNode.label (pinnedTeamNodes s)))
    by (rewrite pinned_labels; apply distinct_NoDup).
  exact (@map_get_entries (pinnedTeamNodes s) Hnd k _
           (pinnedTeamNodes_nth s k Hk)).
Qed.

(** Every visible person with a non-empty team passes the test of the first
    pass: its team has a position. *)
Lemma visible_team_has_position (s : AppState) (p : Person.t) :
  In p (filteredNodes s) ->
  hasTeamPosition (teamPositions s) p = Js.truthy (Person.team p).
Proof.
  intros Hp. unfold hasTeamPosition.
  destruct (Js.truthy (Person.team p)) eqn:Et; [| reflexivity]. simpl.
  apply map_has_In. rewrite teamPositions_keys. unfold distinctTeams.
  apply distinct_In, filter_In. split; [| exact Et].
  apply in_map. exact Hp.
Qed.

(** ** The layout as a whole *)

Section LayoutFacts.

Variables Math_cos Math_sin : float -> float.
Variable s : AppState.

(** A render never throws.  Its output lists first the visible persons
    without a team, in their order and at their stored coordinates (0 for a
    missing one), then the members of the teams, then the team nodes; a
    visible person with a team is there as member [i] of [n] on the circle
    around the position of its team, with its stored coordinates unused. *)
Lemma layout_shape :
  exists circled,
    rfNodes Math_cos Math_sin s
    = Some (map rfNode
              (map freeNode
                   (filter (fun n => negb (Js.truthy (Person.team n)))
                           (filteredNodes s))
               ++ circled
               ++ map GraphNode.pinned (pinnedTeamNodes s)))
    /\ (forall p,
           In p (filteredNodes s) -> Person.team p <> "" ->
           exists teamPos i n,
             Js.map_get (teamPositions s) (Person.team p) = Some teamPos
             /\ i < n
             /\ In (circleNode Math_cos Math_sin teamPos n p i) circled).
Proof.
  unfold rfNodes, graphNodes, graphPersonNodes.
  destruct (first_pass (teamPositions s) (filteredNodes s) [] [])
    as [tg [Hfold [Hkeys [Hmem _]]]].
  unfold Js.JsMap in *. rewrite Hfold. cbn [bind app].
  destruct (@second_pass Math_cos Math_sin (teamPositions s) tg
              (map freeNode
                   (filter (fun n => negb (hasTeamPosition (teamPositions s) n))
                           (filteredNodes s))))
    as [circled [Hcircle Hin]].
  { intros k Hk. destruct (Hkeys k Hk) as [[]|H]. exact H. }
  rewrite Hcircle. cbn [bind].
  exists circled. split.
  - rewrite <- app_assoc. do 4 f_equal.
    apply filter_ext_in. intros p Hp.
    rewrite visible_team_has_position by exact Hp. reflexivity.
  - intros p Hp Hteam.
    assert (Hc : hasTeamPosition (teamPositions s) p = true).
    { rewrite visible_team_has_position by exact Hp.
      apply truthy_true. exact Hteam. }
    pose proof (Hmem p Hp Hc) as Hmember.
    unfold membersOf in Hmember.
    destruct (Js.map_get tg (Person.team p)) as [ms|] eqn:Ems;
      [| destruct Hmember].
    apply In_nth_error in Hmember. destruct Hmember as [i Hi].
    destruct (map_has_get (teamPositions s) (Person.team p)) as [tp Htp].
    { unfold hasTeamPosition in Hc. apply andb_true_iff in Hc. tauto. }
    exists tp, i, (List.length ms). split; [exact Htp |]. split.
    + apply nth_error_Some. congruence.
    + eapply Hin; eauto. apply map_get_In. exact Ems.
Qed.

Lemma rfNodes_total : exists out, rfNodes Math_cos Math_sin s = Some out.
Proof. destruct layout_shape as [circled [H _]]. eauto. Qed.

End LayoutFacts.

(** C1, as the code has it.  A visible person with no team that has stored
    coordinates (x, y) is in the output at exactly (x, y), with its id, label,
    colour and opacity. *)
Theorem stored_position_kept_without_team
    (Math_cos Math_sin : float -> float) (s : AppState)
    (p : Person.t) (px py : float) :
  In p (filteredNodes s) ->
  Person.x p = Some px -> Person.y p = Some py ->
  Person.team p = "" ->
  exists out,
    rfNodes Math_cos Math_sin s = Some out
    /\ In (mkRFNode (Person.id p) (px, py) (nodeLabel p)
                    (Js.map_get statusColors (Person.status p))
                    (Some (if Person.status p =? "Rejected"
                           then 0x1.999999999999ap-2%float else 1%float))
                    (negb (String.prefix "team_" (Person.id p))))
          out.
Proof.
  intros Hp Hx Hy Hteam.
  destruct (layout_shape Math_cos Math_sin s) as [circled [Hout _]].
  eexists. split; [exact Hout |].
  rewrite map_app, in_app_iff. left.
  change (mkRFNode _ _ _ _ _ _) with (rfNode (personNode p px py)).
  apply in_map.
  replace (personNode p px py) with (freeNode p)
    by (unfold freeNode; rewrite Hx, Hy; reflexivity).
  apply in_map, filter_In. split; [exact Hp |].
  rewrite Hteam. reflexivity.
Qed.

Lemma stored_position_kept_without_team_witness :
  let p := plain "7" "" (Some 3%float) (Some 4%float) in
  let s := idle [plain "1" "Eng" None None; p] [] in
  In p (filteredNodes s)
  /\ exists out,
       rfNodes (fun _ => 1%float) (fun _ => 0%float) s = Some out
       /\ In (mkRFNode "7" (3%float, 4%float) "person 7"
                       (Some "#3498db") (Some 1%float) true)
             out.
Proof.
  split; [right; left; reflexivity |].
  exact (@stored_position_kept_without_team
           (fun _ => 1%float) (fun _ => 0%float)
           (idle [plain "1" "Eng" None None;
                  plain "7" "" (Some 3%float) (Some 4%float)] [])
           (plain "7" "" (Some 3%float) (Some 4%float)) 3%float 4%float
           (or_intror (or_introl eq_refl)) eq_refl eq_refl eq_refl).
Defined.

(** The render of [dragged]: the person is the only member of its team and
    is put at angle 0 of the circle around (800, 50). *)
Lemma rfNodes_dragged (Math_cos Math_sin : float -> float) :
  rfNodes Math_cos Math_sin dragged
  = Some [ mkRFNode "1"
                    ((800 + 200 * Math_cos 0)%float,
                     (50 + 200 * Math_sin 0)%float)
                    "person 1" (Some "#3498db") (Some 1%float) true;
           mkRFNode "team_Eng" (800%float, 50%float) "Eng"
                    (Some "#9b59b6") None false ].
Proof. reflexivity. Qed.

(** C1, as stated, fails.  Person "1" is visible, belongs to team "Eng" and
    has the stored coordinates (10, 20).  With [Math.cos(0) = 1] and
    [Math.sin(0) = 0] the render has one node with id "1", at (1000, 50):
    the first point of the circle of radius 200 around the position (800, 50)
    of its team.  No node of the output is person "1" at (10, 20). *)
Lemma stored_position_lost_in_team :
  let p := Person.mk "1" "person 1" "To do" false "Eng" ""
                     (Some 10%float) (Some 20%float) in
  In p (filteredNodes dragged)
  /\ Person.x p = Some 10%float
  /\ Person.y p = Some 20%float
  /\ forall Math_cos Math_sin : float -> float,
       Math_cos 0%float = 1%float -> Math_sin 0%float = 0%float ->
       exists out,
         rfNodes Math_cos Math_sin dragged = Some out
         /\ (forall n, In n out -> rf_id n = "1" ->
                       position n = (1000%float, 50%float))
         /\ ~ In (mkRFNode "1" (10%float, 20%float) "person 1"
                           (Some "#3498db") (Some 1%float) true)
                 out.
Proof.
  cbv zeta. split; [left; reflexivity |].
  split; [reflexivity |]. split; [reflexivity |].
  intros Math_cos Math_sin Hcos Hsin.
  eexists. split; [apply rfNodes_dragged |].
  rewrite Hcos, Hsin. split.
  - intros n [<-|[<-|[]]] Hid; [reflexivity | discriminate Hid].
  - intros [H|[H|[]]]; [| discriminate H].
    apply (f_equal (fun n => PrimFloat.eqb (fst (position n)) 10%float)) in H.
    vm_compute in H. discriminate H.
Qed.

(** C9. Two renders whose visible nodes are the same list both produce an
    output, and the same one: every node has the same id, coordinates, label
    and style in both, whatever else differs between the two states (the
    hidden nodes, the links, the forms, the selection), and whether or not
    coordinates are stored; so in particular when none are. *)
Theorem layout_deterministic
    (Math_cos Math_sin : float -> float) (s1 s2 : AppState) :
  filteredNodes s1 = filteredNodes s2 ->
  exists out,
    rfNodes Math_cos Math_sin s1 = Some out
    /\ rfNodes Math_cos Math_sin s2 = Some out.
Proof.
  intros Hsame.
  destruct (rfNodes_total Math_cos Math_sin s1) as [out Hout].
  exists out. split; [exact Hout |]. rewrite <- Hout.
  unfold rfNodes, graphNodes, graphPersonNodes, teamPositions,
    pinnedTeamNodes, teamNodesArray, teamNodesMap.
  rewrite Hsame. reflexivity.
Qed.

Lemma layout_deterministic_witness :
  let a := plain "1" "Eng" None None in
  let b := plain "2" "Eng" None None in
  let c := plain "3" "Ops" None None in
  let s1 := idle [a; b] [] in
  let s2 := mkState [a; c; b] [Link.mk "1" "3"]
                    (NewNodeInput.mk "Eve" "CEO" true "Ops") "1"
                    "" false "Eng" "Ops" (Some c) "kid" "Interview" true in
  filteredNodes s1 = filteredNodes s2
  /\ exists out,
       rfNodes (fun _ => 1%float) (fun _ => 0%float) s1 = Some out
       /\ rfNodes (fun _ => 1%float) (fun _ => 0%float) s2 = Some out.
Proof.
  split; [reflexivity |].
  exact (@layout_deterministic
           (fun _ => 1%float) (fun _ => 0%float)
           (idle [plain "1" "Eng" None None; plain "2" "Eng" None None] [])
           (mkState [plain "1" "Eng" None None; plain "3" "Ops" None None;
                     plain "2" "Eng" None None]
                    [Link.mk "1" "3"]
                    (NewNodeInput.mk "Eve" "CEO" true "Ops") "1"
                    "" false "Eng" "Ops" (Some (plain "3" "Ops" None None))
                    "kid" "Interview" true)
           eq_refl).
Defined.

(** ** Stored coordinates of team members are never read *)

Lemma unstore_team (p : Person.t) : Person.team (unstore p) = Person.team p.
Proof. unfold unstore. destruct (Js.truthy (Person.team p)); reflexivity. Qed.

Lemma unstore_no_team (p : Person.t) :
  Js.truthy (Person.team p) = false -> unstore p = p.
Proof. unfold unstore. intros ->. reflexivity. Qed.

Lemma personNode_unstore (p : Person.t) (px py : float) :
  personNode (unstore p) px py = personNode p px py.
Proof. unfold unstore. destruct (Js.truthy (Person.team p)); reflexivity. Qed.

Lemma filter_map_swap {A B : Type} (f : B -> bool) (g : A -> B) (l : list A) :
  filter f (map g l) = map g (filter (fun a => f (g a)) l).
Proof.
  induction l as [|a l IH]; simpl; [reflexivity |].
  destruct (f (g a)); simpl; rewrite IH; reflexivity.
Qed.

Lemma filteredNodes_unstore (s : AppState) :
  filteredNodes (unstoreTeams s) = map unstore (filteredNodes s).
Proof.
  unfold filteredNodes. simpl. rewrite filter_map_swap. f_equal.
  apply filter_ext. intros p. unfold nodePasses, unstore. simpl.
  destruct (Js.truthy (Person.team p)); reflexivity.
Qed.

Lemma distinctTeams_unstore (l : list Person.t) :
  distinctTeams (map unstore l) = distinctTeams l.
Proof.
  unfold distinctTeams. rewrite map_map. do 2 f_equal.
  apply map_ext. exact unstore_team.
Qed.

Lemma pinnedTeamNodes_unstore (s : AppState) :
  pinnedTeamNodes (unstoreTeams s) = pinnedTeamNodes s.
Proof.
  unfold pinnedTeamNodes. rewrite !teamNodesArray_distinct.
  rewrite filteredNodes_unstore, distinctTeams_unstore. reflexivity.
Qed.

Lemma teamPositions_unstore (s : AppState) :
  teamPositions (unstoreTeams s) = teamPositions s.
Proof. unfold teamPositions. rewrite pinnedTeamNodes_unstore. reflexivity. Qed.

Lemma map_get_unstoreGroups (tg : Js.JsMap (list Person.t)) (k : string) :
  Js.map_get (unstoreGroups tg) k = option_map (map unstore) (Js.map_get tg k).
Proof.
  induction tg as [|[k' ms] tg IH]; simpl; [reflexivity |].
  destruct (k' =? k); [reflexivity | exact IH].
Qed.

Lemma map_has_unstoreGroups (tg : Js.JsMap (list Person.t)) (k : string) :
  Js.map_has (unstoreGroups tg) k = Js.map_has tg k.
Proof.
  unfold Js.map_has. rewrite map_get_unstoreGroups.
  destruct (Js.map_get tg k); reflexivity.
Qed.

Lemma map_set_unstoreGroups (tg : Js.JsMap (list Person.t)) (k : string)
                            (ms : list Person.t) :
  Js.map_set (unstoreGroups tg) k (map unstore ms)
  = unstoreGroups (Js.map_set tg k ms).
Proof.
  induction tg as [|[k' ms'] tg IH]; simpl; [reflexivity |].
  destruct (k' =? k); simpl; [reflexivity | rewrite IH; reflexivity].
Qed.

Section Unstore.

Variables Math_cos Math_sin : float -> float.
Variable positions : Js.JsMap Point.t.

Lemma push_unstore (g : list GraphNode.t) (tg : Js.JsMap (list Person.t))
                   (p : Person.t) :
  (let* members := Js.map_get (unstoreGroups tg) (Person.team p) in
   Some (g, Js.map_set (unstoreGroups tg) (Person.team p)
                       (members ++ [unstore p])))
  = option_map unstoreAcc
      (let* members := Js.map_get tg (Person.team p) in
       Some (g, Js.map_set tg (Person.team p) (members ++ [p]))).
Proof.
  rewrite map_get_unstoreGroups.
  destruct (Js.map_get tg (Person.team p)) as [ms|]; [| reflexivity].
  cbn [option_map bind]. unfold unstoreAcc. cbn [fst snd].
  rewrite <- map_set_unstoreGroups, map_app. reflexivity.
Qed.

Lemma group_step_unstore acc p :
  (Js.truthy (Person.team p) = true ->
   Js.map_has positions (Person.team p) = true) ->
  group_step positions (option_map unstoreAcc acc) (unstore p)
  = option_map unstoreAcc (group_step positions acc p).
Proof.
  intros Hpos. destruct acc as [[g tg]|]; [| reflexivity].
  unfold group_step. unfold unstoreAcc at 1. cbn [option_map bind fst snd].
  rewrite unstore_team.
  destruct (Js.truthy (Person.team p)) eqn:Et.
  - rewrite Hpos by reflexivity. cbn [andb].
    rewrite map_has_unstoreGroups.
    destruct (Js.map_has tg (Person.team p)) eqn:Eh; cbn [negb].
    + apply push_unstore.
    + change (Js.map_set (unstoreGroups tg) (Person.team p) [])
        with (Js.map_set (unstoreGroups tg) (Person.team p) (map unstore [])).
      rewrite map_set_unstoreGroups. apply push_unstore.
  - cbn [andb option_map]. unfold unstoreAcc. cbn [fst snd].
    rewrite unstore_no_team by exact Et. reflexivity.
Qed.

Lemma first_pass_unstore (l : list Person.t) :
  (forall p, In p l -> Js.truthy (Person.team p) = true ->
             Js.map_has positions (Person.team p) = true) ->
  forall acc,
    fold_left (group_step positions) (map unstore l)
              (option_map unstoreAcc acc)
    = option_map unstoreAcc (fold_left (group_step positions) l acc).
Proof.
  induction l as [|p l IH]; intros Hpos acc; simpl; [reflexivity |].
  rewrite group_step_unstore by (apply Hpos; left; reflexivity).
  apply IH. intros q Hq. apply Hpos. right. exact Hq.
Qed.

Lemma mapi_from_unstore (teamPos : Point.t) (n : nat) (ms : list Person.t) :
  forall i,
    Js.mapi_from (circleNode Math_cos Math_sin teamPos n) i (map unstore ms)
    = Js.mapi_from (circleNode Math_cos Math_sin teamPos n) i ms.
Proof.
  induction ms as [|p ms IH]; intros i; simpl; [reflexivity |].
  rewrite IH. unfold circleNode at 1 3. rewrite personNode_unstore.
  reflexivity.
Qed.

Lemma second_pass_unstore (tg : Js.JsMap (list Person.t)) :
  forall acc,
    fold_left (circle_step Math_cos Math_sin positions) (unstoreGroups tg) acc
    = fold_left (circle_step Math_cos Math_sin positions) tg acc.
Proof.
  induction tg as [|[k ms] tg IH]; intros acc; simpl; [reflexivity |].
  rewrite IH. f_equal.
  unfold circle_step. destruct acc as [g|]; [| reflexivity]. cbn [bind].
  destruct (Js.map_get positions k) as [tp|]; [| reflexivity]. cbn [bind].
  unfold Js.mapi. rewrite length_map, mapi_from_unstore. reflexivity.
Qed.

End Unstore.

Lemma graphPersonNodes_unstore
    (Math_cos Math_sin : float -> float) (s : AppState) :
  graphPersonNodes Math_cos Math_sin (unstoreTeams s)
  = graphPersonNodes Math_cos Math_sin s.
Proof.
  unfold graphPersonNodes.
  rewrite teamPositions_unstore, filteredNodes_unstore.
  change (Some (@nil GraphNode.t, @nil (string * list Person.t)))
    with (option_map unstoreAcc
            (Some (@nil GraphNode.t, @nil (string * list Person.t)))).
  rewrite first_pass_unstore.
  - change (option_map unstoreAcc
              (Some (@nil GraphNode.t, @nil (string * list Person.t))))
      with (Some (@nil GraphNode.t, @nil (string * list Person.t))).
    destruct (fold_left (group_step (teamPositions s)) (filteredNodes s)
                        (Some ([], []))) as [[g tg]|]; [| reflexivity].
    cbn [option_map bind unstoreAcc fst snd].
    rewrite second_pass_unstore. reflexivity.
  - intros p Hp Ht.
    pose proof (visible_team_has_position s p Hp) as Hc.
    unfold hasTeamPosition in Hc. rewrite Ht in Hc. exact Hc.
Qed.

(** Erasing the stored coordinates of every person that has a team changes
    nothing in the render: the layout never reads them. *)
Theorem layout_ignores_stored_position_in_team
    (Math_cos Math_sin : float -> float) (s : AppState) :
  rfNodes Math_cos Math_sin (unstoreTeams s) = rfNodes Math_cos Math_sin s.
Proof.
  unfold rfNodes, graphNodes.
  rewrite graphPersonNodes_unstore, pinnedTeamNodes_unstore.
  reflexivity.
Qed.

(* ================================================================== *)
(** * The rest of the page *)

(** ** Dragging *)

(** The render as a function of the visible persons with the stored
    coordinates of team members erased. *)
Lemma rfNodes_same_unstored
    (Math_cos Math_sin : float -> float) (s1 s2 : AppState) :
  map unstore (filteredNodes s1) = map unstore (filteredNodes s2) ->
  rfNodes Math_cos Math_sin s1 = rfNodes Math_cos Math_sin s2.
Proof.
  intros Hsame.
  unfold rfNodes, graphNodes.
  rewrite <- (graphPersonNodes_unstore Math_cos Math_sin s1),
          <- (graphPersonNodes_unstore Math_cos Math_sin s2),
          <- (pinnedTeamNodes_unstore s1), <- (pinnedTeamNodes_unstore s2).
  unfold graphPersonNodes, teamPositions, pinnedTeamNodes, teamNodesArray,
    teamNodesMap.
  rewrite !filteredNodes_unstore, Hsame. reflexivity.
Qed.

(** A visible person without a team is in the render at its stored
    coordinates, 0 standing for a missing one. *)
Lemma free_person_rendered
    (Math_cos Math_sin : float -> float) (s : AppState) (p : Person.t) :
  In p (filteredNodes s) -> Person.team p = "" ->
  exists out,
    rfNodes Math_cos Math_sin s = Some out /\ In (rfNode (freeNode p)) out.
Proof.
  intros Hp Hteam.
  destruct (layout_shape Math_cos Math_sin s) as [circled [Hout _]].
  eexists. split; [exact Hout |].
  rewrite map_app, in_app_iff. left.
  apply in_map, in_map, filter_In. split; [exact Hp |].
  rewrite Hteam. reflexivity.
Qed.


Lemma nodes_drag (nodeId : string) (px py : float) (s : AppState) :
  nodes (onNodeDragStop nodeId px py s)
  = map (fun n => if Person.id n =? nodeId then moved px py n else n)
        (nodes s).
Proof.
  unfold onNodeDragStop, handleNodePositionChange.
  destruct (existsb (fun n => Person.id n =? nodeId) (nodes s)) eqn:E;
    simpl; [reflexivity |].
  symmetry. rewrite <- (map_id (nodes s)) at 2.
  apply map_ext_in. intros n Hn.
  destruct (Person.id n =? nodeId) eqn:En; [| reflexivity].
  assert (Hex : existsb (fun n => Person.id n =? nodeId) (nodes s) = true)
    by (apply existsb_exists; eauto).
  congruence.
Qed.

Lemma filteredNodes_drag (nodeId : string) (px py : float) (s : AppState) :
  filteredNodes (onNodeDragStop nodeId px py s)
  = map (fun n => if Person.id n =? nodeId then moved px py n else n)
        (filteredNodes s).
Proof.
  unfold filteredNodes. rewrite nodes_drag, filter_map_swap. f_equal.
  apply filter_ext. intros n.
  assert (Hf : forall t, nodePasses (onNodeDragStop nodeId px py s) t
                         = nodePasses s t).
  { intros t. unfold onNodeDragStop, handleNodePositionChange.
    destruct (existsb _ (nodes s)); reflexivity. }
  rewrite Hf. destruct (Person.id n =? nodeId); reflexivity.
Qed.

(** Drop and render.  A visible person without a team that is dragged to
    (x, y) is in the next render at exactly (x, y). *)
Theorem drag_places_free_person
    (Math_cos Math_sin : float -> float) (s : AppState)
    (p : Person.t) (px py : float) :
  In p (filteredNodes s) ->
  Person.team p = "" ->
  exists out,
    rfNodes Math_cos Math_sin (onNodeDragStop (Person.id p) px py s) = Some out
    /\ In (mkRFNode (Person.id p) (px, py) (nodeLabel p)
                    (Js.map_get statusColors (Person.status p))
                    (Some (if Person.status p =? "Rejected"
                           then 0x1.999999999999ap-2%float else 1%float))
                    (negb (String.prefix "team_" (Person.id p))))
          out.
Proof.
  intros Hp Hteam.
  apply (@free_person_rendered Math_cos Math_sin
           (onNodeDragStop (Person.id p) px py s) (moved px py p));
    [| exact Hteam].
  rewrite filteredNodes_drag.
  apply in_map_iff. exists p. rewrite String.eqb_refl. auto.
Qed.

Lemma drag_places_free_person_witness :
  let p := plain "7" "" None None in
  let s := idle [plain "1" "Eng" None None; p] [] in
  In p (filteredNodes s)
  /\ exists out,
       rfNodes (fun _ => 1%float) (fun _ => 0%float)
               (onNodeDragStop "7" 3%float 4%float s) = Some out
       /\ In (mkRFNode "7" (3%float, 4%float) "person 7"
                       (Some "#3498db") (Some 1%float) true)
             out.
Proof.
  split; [right; left; reflexivity |].
  exact (@drag_places_free_person
           (fun _ => 1%float) (fun _ => 0%float)
           (idle [plain "1" "Eng" None None; plain "7" "" None None] [])
           (plain "7" "" None None) 3%float 4%float
           (or_intror (or_introl eq_refl)) eq_refl).
Defined.

(** Dragging a team member has no effect on the layout: when every person
    with the dragged id has a team, the render after the drag is the render
    before it. *)
Theorem drag_of_team_member_is_lost
    (Math_cos Math_sin : float -> float) (s : AppState)
    (nodeId : string) (px py : float) :
  (forall n, In n (nodes s) -> Person.id n = nodeId -> Person.team n <> "") ->
  rfNodes Math_cos Math_sin (onNodeDragStop nodeId px py s)
  = rfNodes Math_cos Math_sin s.
Proof.
  intros Hteam. apply rfNodes_same_unstored.
  rewrite filteredNodes_drag, map_map. apply map_ext_in.
  intros n Hn.
  destruct (Person.id n =? nodeId) eqn:E; [| reflexivity].
  apply String.eqb_eq in E.
  assert (Hin : In n (nodes s)).
  { unfold filteredNodes in Hn. apply filter_In in Hn. tauto. }
  pose proof (Hteam n Hin E) as Ht. apply truthy_true in Ht.
  unfold unstore, moved. simpl. rewrite Ht. reflexivity.
Qed.

Lemma drag_of_team_member_is_lost_witness :
  let s := idle [plain "1" "Eng" None None; plain "2" "" None None] [] in
  rfNodes (fun _ => 1%float) (fun _ => 0%float)
          (onNodeDragStop "1" 10%float 20%float s)
  = rfNodes (fun _ => 1%float) (fun _ => 0%float) s.
Proof.
  apply (@drag_of_team_member_is_lost (fun _ => 1%float) (fun _ => 0%float)
           (idle [plain "1" "Eng" None None; plain "2" "" None None] [])
           "1" 10%float 20%float).
  intros n [<-|[<-|[]]] Hid; [discriminate | discriminate Hid].
Defined.

(** ** Clicking, the quick-edit modal, and saving or deleting *)

Lemma NoDup_map_In_eq {A B : Type} (f : A -> B) (l : list A) (a b : A) :
  NoDup (map f l) -> In a l -> In b l -> f a = f b -> a = b.
Proof.
  induction l as [|c l IH]; simpl; intros Hnd Ha Hb Hf; [contradiction |].
  inversion Hnd as [|? ? Hc Hl]; subst.
  destruct Ha as [->|Ha], Hb as [->|Hb]; auto.
  - exfalso. apply Hc. rewrite Hf. apply in_map. exact Hb.
  - exfalso. apply Hc. rewrite <- Hf. apply in_map. exact Ha.
Qed.

Lemma editPerson_identity (e : Edit) (p : Person.t) :
  Person.id (editPerson e p) = Person.id p
  /\ Person.name (editPerson e p) = Person.name p
  /\ Person.team (editPerson e p) = Person.team p
  /\ Person.x (editPerson e p) = Person.x p
  /\ Person.y (editPerson e p) = Person.y p.
Proof. destruct e; repeat split. Qed.

Lemma applyEdits_identity (edits : list Edit) :
  forall p,
    Person.id (applyEdits edits p) = Person.id p
    /\ Person.name (applyEdits edits p) = Person.name p
    /\ Person.team (applyEdits edits p) = Person.team p
    /\ Person.x (applyEdits edits p) = Person.x p
    /\ Person.y (applyEdits edits p) = Person.y p.
Proof.
  unfold applyEdits.
  induction edits as [|e edits IH]; intros p; simpl; [repeat split |].
  destruct (IH (editPerson e p)) as [H1 [H2 [H3 [H4 H5]]]].
  destruct (editPerson_identity e p) as [E1 [E2 [E3 [E4 E5]]]].
  repeat split; congruence.
Qed.

Lemma typeEdits_closed (edits : list Edit) (s : AppState) :
  selectedPerson s = None -> typeEdits edits s = s.
Proof.
  unfold typeEdits. intros Hsel.
  induction edits as [|e edits IH]; simpl; [reflexivity |].
  unfold onEdit at 2. rewrite Hsel. exact IH.
Qed.

Lemma typeEdits_open (edits : list Edit) :
  forall (s : AppState) (p : Person.t),
    selectedPerson s = Some p ->
    typeEdits edits s = setSelectedPerson (Some (applyEdits edits p)) s.
Proof.
  unfold typeEdits, applyEdits.
  induction edits as [|e edits IH]; intros s p Hsel; simpl.
  - destruct s; simpl in *. subst. reflexivity.
  - unfold onEdit at 2. rewrite Hsel.
    rewrite (IH _ (editPerson e p)) by reflexivity. reflexivity.
Qed.

(** What a click on a node of the graph selects. *)
Lemma onNodeClick_found (nodeId : string) (s : AppState) (p : Person.t) :
  String.prefix "team_" nodeId = false ->
  find (fun node => Person.id node =? nodeId) (nodes s) = Some p ->
  onNodeClick nodeId s
  = mkState (nodes s) (links s) (newNode s) (connection s)
            (filterStatus s) (filterStarred s) (filterTeam s) (teamOption s)
            (Some p) "" "To do" false.
Proof.
  intros Hpre Hfind. unfold onNodeClick, handleNodeClick.
  rewrite Hpre, Hfind. reflexivity.
Qed.

Lemma onNodeClick_missing (nodeId : string) (s : AppState) :
  find (fun node => Person.id node =? nodeId) (nodes s) = None ->
  onNodeClick nodeId s = s.
Proof.
  intros Hfind. unfold onNodeClick, handleNodeClick. rewrite Hfind.
  destruct (String.prefix "team_" nodeId); reflexivity.
Qed.

(** A quick-edit session.  With the modal closed and distinct ids, clicking
    a node, changing status, star and notes any number of times and pressing
    Save changes exactly the clicked person, by exactly these edits: its id,
    name, team and coordinates stay, and every other person and all links
    stay.  The modal is closed once the save request has resolved; while it
    has not, the selection stays as it was edited.  A click that selects
    nothing (no person has the id) makes the session a no-op. *)
Theorem quick_edit_session (s : AppState) (nodeId : string)
                           (edits : list Edit) (resolved : bool) :
  selectedPerson s = None ->
  NoDup (ids s) ->
  String.prefix "team_" nodeId = false ->
  let opened := typeEdits edits (onNodeClick nodeId s) in
  let s' := fst (updatePersonWith resolved opened) in
  nodes s' = map (fun n => if Person.id n =? nodeId
                           then applyEdits edits n else n) (nodes s)
  /\ links s' = links s
  /\ (resolved = true -> selectedPerson s' = None)
  /\ (resolved = false -> selectedPerson s' = selectedPerson opened)
  /\ (forall n, Person.id (applyEdits edits n) = Person.id n
                /\ Person.name (applyEdits edits n) = Person.name n
                /\ Person.team (applyEdits edits n) = Person.team n
                /\ Person.x (applyEdits edits n) = Person.x n
                /\ Person.y (applyEdits edits n) = Person.y n).
Proof.
  intros Hsel Hnd Hpre opened s'. subst s' opened.
  destruct (find (fun node => Person.id node =? nodeId) (nodes s))
    as [p|] eqn:Hfind.
  - rewrite (onNodeClick_found _ _ Hpre Hfind).
    rewrite (typeEdits_open edits _ (p := p)) by reflexivity.
    unfold updatePersonWith. simpl.
    split; [| split; [reflexivity | split; [| split]]].
    + destruct (applyEdits_identity edits p) as [Hid _]. rewrite Hid.
      apply find_some in Hfind. destruct Hfind as [Hin Heq].
      apply String.eqb_eq in Heq. rewrite Heq.
      apply map_ext_in. intros n Hn.
      destruct (Person.id n =? nodeId) eqn:En; [| reflexivity].
      apply String.eqb_eq in En.
      rewrite (@NoDup_map_In_eq _ _ Person.id (nodes s) n p); auto.
      congruence.
    + intros ->. reflexivity.
    + intros ->. reflexivity.
    + apply applyEdits_identity.
  - rewrite (onNodeClick_missing _ _ Hfind).
    rewrite typeEdits_closed by exact Hsel.
    unfold updatePersonWith. rewrite Hsel. simpl.
    split; [| split; [reflexivity | split; [| split]]].
    + rewrite <- (map_id (nodes s)) at 1. apply map_ext_in. intros n Hn.
      pose proof (find_none _ _ Hfind n Hn) as En. simpl in En.
      rewrite En. reflexivity.
    + intros _. simpl. exact Hsel.
    + intros _. simpl. congruence.
    + apply applyEdits_identity.
Qed.

Lemma quick_edit_session_witness :
  let s := idle [plain "1" "" None None; plain "2" "Eng" None None]
                [Link.mk "1" "2"] in
  let edits := [EditStatus "Interview"; EditStarred true;
                EditNotes "call back"; EditStatus "CEO"] in
  selectedPerson s = None
  /\ NoDup (ids s)
  /\ nodes (fst (updatePersonWith false
                                  (typeEdits edits (onNodeClick "2" s))))
     = [plain "1" "" None None;
        Person.mk "2" "person 2" "CEO" true "Eng" "call back" None None].
Proof.
  cbv zeta.
  assert (Hnd : NoDup (ids (idle [plain "1" "" None None;
                                  plain "2" "Eng" None None]
                                 [Link.mk "1" "2"]))).
  { repeat constructor; simpl; intuition discriminate. }
  split; [reflexivity |]. split; [exact Hnd |].
  exact (proj1 (@quick_edit_session
                  (idle [plain "1" "" None None; plain "2" "Eng" None None]
                        [Link.mk "1" "2"])
                  "2"
                  [EditStatus "Interview"; EditStarred true;
                   EditNotes "call back"; EditStatus "CEO"]
                  false eq_refl Hnd eq_refl)).
Defined.

(** Why the ids must be distinct: with two persons of id "3", opening one
    and saving without any edit overwrites the other. *)
Example save_merges_same_ids :
  let s := idle [plain "1" "" None None; plain "3" "Eng" None None;
                 Person.mk "3" "Eve" "CEO" true "" "" None None] [] in
  nodes (fst (updatePerson (onNodeClick "3" s)))
  = [plain "1" "" None None; plain "3" "Eng" None None;
     plain "3" "Eng" None None].
Proof. reflexivity. Qed.

(** Click and delete.  Deleting the person opened by a click on an id that
    some person has removes every person with that id and leaves no link
    that mentions the id; every other person stays. *)
Theorem click_delete_removes (s : AppState) (nodeId : string) :
  String.prefix "team_" nodeId = false ->
  In nodeId (ids s) ->
  let s' := fst (deletePerson (onNodeClick nodeId s)) in
  ~ In nodeId (ids s')
  /\ (forall l, In l (links s') ->
                Link.source l <> nodeId /\ Link.target l <> nodeId)
  /\ (forall n, In n (nodes s') <-> In n (nodes s) /\ Person.id n <> nodeId)
  /\ selectedPerson s' = None.
Proof.
  intros Hpre Hin s'. subst s'.
  destruct (find (fun node => Person.id node =? nodeId) (nodes s))
    as [p|] eqn:Hfind.
  - rewrite (onNodeClick_found _ _ Hpre Hfind).
    apply find_some in Hfind. destruct Hfind as [_ Hid].
    apply String.eqb_eq in Hid.
    unfold deletePerson, ids. simpl. rewrite Hid.
    split; [| split; [| split; [| reflexivity]]].
    + rewrite in_map_iff. intros [n [Hn Hf]].
      apply filter_In in Hf. destruct Hf as [_ Hf].
      rewrite negb_true_iff, String.eqb_neq in Hf. contradiction.
    + intros l Hl. apply filter_In in Hl. destruct Hl as [_ Hl].
      rewrite andb_true_iff, !negb_true_iff, !String.eqb_neq in Hl.
      exact Hl.
    + intros n. rewrite filter_In, negb_true_iff, String.eqb_neq. tauto.
  - exfalso. unfold ids in Hin. apply in_map_iff in Hin.
    destruct Hin as [n [Hid Hn]].
    pose proof (find_none _ _ Hfind n Hn) as En. simpl in En.
    apply String.eqb_neq in En. contradiction.
Qed.

Lemma click_delete_removes_witness :
  In "2" (ids scenario)
  /\ ~ In "2" (ids (fst (deletePerson (onNodeClick "2" scenario)))).
Proof.
  assert (Hin : In "2" (ids scenario)) by (right; left; reflexivity).
  split; [exact Hin |].
  exact (proj1 (@click_delete_removes scenario "2" eq_refl Hin)).
Defined.

(** ** Dangling links *)

Lemma in_ids_snoc (s : AppState) (p : Person.t) (k : string) :
  In k (ids s) -> In k (map Person.id (nodes s ++ [p])).
Proof. unfold ids. rewrite map_app, in_app_iff. auto. Qed.

(** One repository action keeps the document free of dangling links when
    the "Connect To" cell is empty or the id of a person and the selected
    person, if any, is one of the document. *)
Theorem step_keeps_links_closed (a : Action) (s : AppState) :
  linksClosed s ->
  (connection s = "" \/ In (connection s) (ids s)) ->
  (forall sel, selectedPerson s = Some sel -> In (Person.id sel) (ids s)) ->
  linksClosed (step a s).
Proof.
  intros Hclosed Hconn Hsel. unfold linksClosed in *.
  destruct a; unfold step.
  - unfold addNode.
    destruct (Js.truthy (NewNodeInput.name (newNode s))); [| exact Hclosed].
    unfold ids. simpl.
    destruct (Js.truthy (connection s)) eqn:Ec.
    + intros l Hl. apply in_app_iff in Hl. destruct Hl as [Hl|[<-|[]]].
      * destruct (Hclosed l Hl). split; apply in_ids_snoc; assumption.
      * simpl. apply truthy_true in Ec.
        destruct Hconn as [Hc|Hc]; [contradiction |].
        split; [apply in_ids_snoc; exact Hc |].
        rewrite map_app, in_app_iff. right. left. reflexivity.
    + intros l Hl. destruct (Hclosed l Hl).
      split; apply in_ids_snoc; assumption.
  - unfold updatePerson, updatePersonWith.
    destruct (selectedPerson s) as [sel|]; [| exact Hclosed]. simpl.
    intros l Hl. destruct (Hclosed l Hl) as [H1 H2].
    unfold ids in *. simpl.
    assert (Heq : map Person.id
                    (map (fun node => if Person.id node =? Person.id sel
                                      then sel else node) (nodes s))
                  = map Person.id (nodes s)).
    { rewrite map_map. apply map_ext_in. intros n _.
      destruct (Person.id n =? Person.id sel) eqn:E; [| reflexivity].
      apply String.eqb_eq in E. congruence. }
    rewrite Heq. auto.
  - unfold addChildPerson.
    destruct (selectedPerson s) as [sel|] eqn:Es; [| exact Hclosed].
    destruct (Js.truthy (childName s)); [| exact Hclosed].
    unfold ids. simpl.
    intros l Hl. apply in_app_iff in Hl. destruct Hl as [Hl|[<-|[]]].
    + destruct (Hclosed l Hl). split; apply in_ids_snoc; assumption.
    + simpl. split; [apply in_ids_snoc; apply Hsel; reflexivity |].
      rewrite map_app, in_app_iff. right. left. reflexivity.
  - unfold deletePerson.
    destruct (selectedPerson s) as [sel|]; [| exact Hclosed].
    unfold ids. simpl. intros l Hl.
    apply filter_In in Hl. destruct Hl as [Hl Hne].
    rewrite andb_true_iff, !negb_true_iff, !String.eqb_neq in Hne.
    destruct (Hclosed l Hl) as [H1 H2]. unfold ids in H1, H2.
    apply in_map_iff in H1. destruct H1 as [n1 [E1 N1]].
    apply in_map_iff in H2. destruct H2 as [n2 [E2 N2]].
    split; apply in_map_iff.
    + exists n1. split; [exact E1 |]. apply filter_In. split; [exact N1 |].
      rewrite negb_true_iff, String.eqb_neq, E1. tauto.
    + exists n2. split; [exact E2 |]. apply filter_In. split; [exact N2 |].
      rewrite negb_true_iff, String.eqb_neq, E2. tauto.
Qed.

Lemma step_keeps_links_closed_witness :
  linksClosed scenario
  /\ linksClosed (step DeletePerson scenario)
  /\ linksClosed (step AddChildPerson scenario).
Proof.
  assert (Hc : linksClosed scenario).
  { intros l [<-|[<-|[]]]; simpl; tauto. }
  assert (Hconn : connection scenario = ""
                  \/ In (connection scenario) (ids scenario))
    by (left; reflexivity).
  assert (Hsel : forall sel, selectedPerson scenario = Some sel ->
                             In (Person.id sel) (ids scenario)).
  { intros sel [= <-]. simpl. tauto. }
  exact (conj Hc
           (conj (@step_keeps_links_closed DeletePerson scenario Hc Hconn Hsel)
                 (@step_keeps_links_closed AddChildPerson scenario
                                           Hc Hconn Hsel))).
Defined.

(** Why the "Connect To" cell matters: it is not cleared by a delete, so
    a person added afterwards can be linked to the deleted one. *)
Example connect_to_deleted_person :
  let s := fst (addNode (fst (deletePerson (typeName "Eve" "2" scenario)))) in
  links s = [Link.mk "2" "3"] /\ ids s = ["1"; "3"; "3"].
Proof. split; reflexivity. Qed.

(** ** The team dropdown and the statistics *)

Lemma new_Set_fold (l : list string) :
  forall acc,
    fold_left set_add l acc =
      acc ++ filter (fun v => negb (Js.set_has acc v)) (distinct l).
Proof.
  induction l as [|a l IH]; intros acc; simpl.
  - rewrite app_nil_r. reflexivity.
  - rewrite IH, filter_filter. unfold set_add.
    destruct (Js.set_has acc a) eqn:Ea; simpl.
    + f_equal. apply filter_ext_in. intros t _.
      destruct (t =? a) eqn:E; simpl; [| reflexivity].
      apply String.eqb_eq in E. subst t. rewrite Ea. reflexivity.
    + rewrite <- app_assoc. simpl. do 2 f_equal.
      apply filter_ext. intros t. unfold Js.set_has.
      rewrite existsb_app. simpl.
      rewrite orb_false_r, negb_orb, andb_comm. reflexivity.
Qed.

Lemma new_Set_distinct (l : list string) : new_Set l = distinct l.
Proof.
  unfold new_Set. rewrite new_Set_fold. simpl.
  apply filter_all. reflexivity.
Qed.

(** The options of the team dropdown are the distinct non-empty teams of
    all persons, visible or not, each once and first seen first; every team
    that has a node on the graph is among them. *)
Theorem team_options (s : AppState) :
  teamOptionsList s = distinctTeams (nodes s)
  /\ NoDup (teamOptionsList s)
  /\ (forall t, In t (teamOptionsList s) <->
                t <> "" /\ exists n, In n (nodes s) /\ Person.team n = t)
  /\ (forall node, In node (pinnedTeamNodes s) ->
                   In (PinnedTeamNode.label node) (teamOptionsList s)).
Proof.
  assert (Heq : teamOptionsList s = distinctTeams (nodes s)).
  { unfold teamOptionsList. rewrite new_Set_distinct. reflexivity. }
  assert (Hin : forall l t, In t (distinctTeams l) <->
                            t <> "" /\ exists n, In n l /\ Person.team n = t).
  { intros l t. unfold distinctTeams.
    rewrite distinct_In, filter_In, in_map_iff, truthy_true.
    split.
    - intros [[n [Hn Hl]] Ht]. eauto.
    - intros [Ht [n [Hl Hn]]]. eauto. }
  rewrite Heq. split; [reflexivity |].
  split; [apply distinct_NoDup |]. split; [apply Hin |].
  intros node Hnode.
  assert (Hlabel : In (PinnedTeamNode.label node)
                      (distinctTeams (filteredNodes s))).
  { rewrite <- pinned_labels. apply in_map. exact Hnode. }
  apply Hin in Hlabel. destruct Hlabel as [Ht [n [Hn Hteam]]].
  apply Hin. split; [exact Ht |]. exists n. split; [| exact Hteam].
  unfold filteredNodes in Hn. apply filter_In in Hn. tauto.
Qed.

Lemma statusStats_entries (s : AppState) :
  statusStats s
  = [ ("To do", statusCount s "To do");
      ("Interview", statusCount s "Interview");
      ("CEO", statusCount s "CEO");
      ("Rejected", statusCount s "Rejected") ].
Proof. reflexivity. Qed.

(** The four counts of the statistics add up to the number of persons whose
    status is one of the four; so to the number of persons when every status
    is one of them. *)
Theorem statusStats_total (s : AppState) :
  list_sum (Js.map_values (statusStats s))
  = List.length
      (filter (fun n => Js.map_has statusColors (Person.status n)) (nodes s))
  /\ ((forall n, In n (nodes s) ->
                 In (Person.status n) (Js.map_keys statusColors)) ->
      list_sum (Js.map_values (statusStats s)) = List.length (nodes s)).
Proof.
  assert (Hsum : list_sum (Js.map_values (statusStats s))
                 = List.length
                     (filter (fun n => Js.map_has statusColors
                                                  (Person.status n))
                             (nodes s))).
  { assert (Hhas : forall st,
              Js.map_has statusColors st
              = (st =? "To do") || (st =? "Interview") || (st =? "CEO")
                || (st =? "Rejected")).
    { intros st. unfold Js.map_has, statusColors. cbn [Js.map_get].
      rewrite (String.eqb_sym "To do"), (String.eqb_sym "Interview"),
        (String.eqb_sym "CEO"), (String.eqb_sym "Rejected").
      destruct (st =? "To do"), (st =? "Interview"), (st =? "CEO"),
        (st =? "Rejected"); reflexivity. }
    rewrite statusStats_entries. unfold statusCount, list_sum.
    cbn [Js.map_values map snd fold_right].
    induction (nodes s) as [|a l IH]; [reflexivity |].
    cbn [filter]. rewrite Hhas.
    destruct (Person.status a =? "To do") eqn:E1,
             (Person.status a =? "Interview") eqn:E2,
             (Person.status a =? "CEO") eqn:E3,
             (Person.status a =? "Rejected") eqn:E4;
      cbn [orb List.length]; try lia; exfalso;
      repeat match goal with
             | H : (_ =? _) = true |- _ => apply String.eqb_eq in H
             end; congruence. }
  split; [exact Hsum |].
  intros Hknown. rewrite Hsum. f_equal.
  apply forallb_filter_id, forallb_forall.
  intros n Hn. apply map_has_In. apply Hknown. exact Hn.
Qed.

Lemma statusStats_total_witness :
  let s := idle [plain "1" "" None None;
                 Person.mk "2" "Bo" "CEO" true "" "" None None;
                 Person.mk "3" "Cy" "CEO" false "Eng" "" None None] [] in
  list_sum (Js.map_values (statusStats s)) = 3.
Proof.
  apply (proj2 (statusStats_total
                  (idle [plain "1" "" None None;
                         Person.mk "2" "Bo" "CEO" true "" "" None None;
                         Person.mk "3" "Cy" "CEO" false "Eng" "" None None]
                        []))).
  intros n [<-|[<-|[<-|[]]]]; simpl; tauto.
Defined.

(** Clicking a tile of the statistics, with the starred and team filters
    off, shows exactly as many persons as the tile counts. *)
Theorem tile_click_shows_count (s : AppState) (status : string) :
  In status (Js.map_keys (statusStats s)) ->
  filterStarred s = false ->
  filterTeam s = "" ->
  List.length (filteredNodes (setFilterStatus status s))
  = match Js.map_get (statusStats s) status with
    | Some count => count
    | None => 0
    end.
Proof.
  intros Hstatus Hstar Hteam.
  assert (Hne : Js.truthy status = true).
  { rewrite statusStats_entries in Hstatus. simpl in Hstatus.
    destruct Hstatus as [<-|[<-|[<-|[<-|[]]]]]; reflexivity. }
  assert (Hcount : Js.map_get (statusStats s) status
                   = Some (statusCount s status)).
  { rewrite statusStats_entries in *. simpl in Hstatus.
    destruct Hstatus as [<-|[<-|[<-|[<-|[]]]]]; reflexivity. }
  rewrite Hcount. unfold statusCount, filteredNodes. simpl. f_equal.
  apply filter_ext. intros n. unfold nodePasses. simpl.
  rewrite Hne, Hstar, Hteam. simpl.
  rewrite !andb_true_r. reflexivity.
Qed.

Lemma tile_click_shows_count_witness :
  let s := idle [plain "1" "" None None;
                 Person.mk "2" "Bo" "CEO" true "" "" None None;
                 Person.mk "3" "Cy" "CEO" false "Eng" "" None None] [] in
  List.length (filteredNodes (setFilterStatus "CEO" s)) = 2.
Proof.
  exact (@tile_click_shows_count
           (idle [plain "1" "" None None;
                  Person.mk "2" "Bo" "CEO" true "" "" None None;
                  Person.mk "3" "Cy" "CEO" false "Eng" "" None None] [])
           "CEO" (or_intror (or_intror (or_introl eq_refl)))
           eq_refl eq_refl).
Defined.

(** ** Sequences of requests to the endpoint *)

Section Requests.

Variable JSON_stringify : Api.json -> nat -> string.
Variable JSON_parse : string -> option Api.json.

Lemma serve_file (requests : list Api.NextApiRequest) :
  forall file,
    fst (serve JSON_stringify JSON_parse requests file)
    = match lastPosted requests with
      | Some body => Some (JSON_stringify body 2)
      | None => file
      end.
Proof.
  induction requests as [|req rest IH]; intros file; simpl; [reflexivity |].
  destruct (Api.handler JSON_stringify JSON_parse req file)
    as [file1 res] eqn:Hh.
  specialize (IH file1).
  destruct (serve JSON_stringify JSON_parse rest file1) as [file2 ress].
  simpl in *. rewrite IH.
  destruct (lastPosted rest); [reflexivity |].
  unfold Api.handler in Hh.
  destruct (Api.method req =? "GET").
  - destruct file as [data|]; [destruct (JSON_parse data) |];
      injection Hh as <- _; reflexivity.
  - destruct (Api.method req =? "POST"); injection Hh as <- _; reflexivity.
Qed.

(** Last writer wins.  After any sequence of requests, the file is the text
    of the body of the last POST, whatever was posted or stored before, and
    a GET then answers with that body when the codec reads it back; when the
    sequence has no POST the file is the one before the sequence. *)
Theorem last_writer_wins (requests : list Api.NextApiRequest)
                         (file : Api.DataFile) :
  (forall D,
      lastPosted requests = Some D ->
      fst (serve JSON_stringify JSON_parse requests file)
      = Some (JSON_stringify D 2)
      /\ (JSON_parse (JSON_stringify D 2) = Some D ->
          Api.load JSON_stringify JSON_parse
                   (fst (serve JSON_stringify JSON_parse requests file))
          = Api.respond_json 200 D))
  /\ (lastPosted requests = None ->
      fst (serve JSON_stringify JSON_parse requests file) = file).
Proof.
  split.
  - intros D HD. rewrite serve_file, HD. split; [reflexivity |].
    intros Hcodec. unfold Api.load, Api.handler. simpl.
    rewrite Hcodec. reflexivity.
  - intros Hnone. rewrite serve_file, Hnone. reflexivity.
Qed.

(** A POST is stored and answered 200 whatever its body and whatever the
    file held: nothing is validated. *)
Lemma post_always_saved (body : Api.json) (file : Api.DataFile) :
  Api.handler JSON_stringify JSON_parse (Api.mkRequest "POST" body) file
  = (Some (JSON_stringify body 2),
     Api.respond_json 200
       (Api.JObject [("message", Api.JString "Data saved")])).
Proof. reflexivity. Qed.

End Requests.

(** ** Edges *)

Lemma hasDash_digits (d : Decimal.uint) :
  hasDash (NilEmpty.string_of_uint d) = false.
Proof. induction d; simpl; auto. Qed.

Lemma hasDash_append (a b : string) :
  hasDash (String.append a b) = hasDash a || hasDash b.
Proof.
  induction a as [|c a IH]; simpl; [reflexivity |].
  rewrite IH, orb_assoc. reflexivity.
Qed.

Lemma afterLastDash_append (a d : string) :
  hasDash d = false ->
  afterLastDash (String.append a (String "-"%char d)) = d.
Proof.
  intros Hd. induction a as [|c a IH]; simpl.
  - rewrite Hd. reflexivity.
  - rewrite hasDash_append. simpl. rewrite orb_true_r. exact IH.
Qed.

Lemma append_assoc (a b c : string) :
  String.append (String.append a b) c = String.append a (String.append b c).
Proof. induction a as [|x a IH]; simpl; [| rewrite IH]; reflexivity. Qed.

(** The index of an edge can be read off its id. *)
Lemma edgeId_index (edge : Link.t) (index : nat) :
  afterLastDash (edgeId edge index) = Js.toString index.
Proof.
  unfold edgeId.
  change (String.append "-" (Js.toString index))
    with (String "-"%char (Js.toString index)).
  rewrite <- !append_assoc.
  apply afterLastDash_append. apply hasDash_digits.
Qed.

Lemma edgeId_inj (e1 e2 : Link.t) (i j : nat) :
  edgeId e1 i = edgeId e2 j -> i = j.
Proof.
  intros H. apply toString_inj.
  rewrite <- (edgeId_index e1 i), <- (edgeId_index e2 j), H. reflexivity.
Qed.

Lemma mapi_In {A B : Type} (f : A -> nat -> B) (l : list A) (b : B) :
  In b (Js.mapi f l) <-> exists i a, nth_error l i = Some a /\ b = f a i.
Proof.
  split.
  - intros Hb. apply In_nth_error in Hb. destruct Hb as [i Hi].
    rewrite mapi_nth in Hi.
    destruct (nth_error l i) as [a|] eqn:Ea; [| discriminate].
    injection Hi as <-. eauto.
  - intros [i [a [Ha ->]]]. apply (nth_error_In _ i).
    rewrite mapi_nth, Ha. reflexivity.
Qed.

(** The ids of the edges are pairwise different, also when the same link is
    stored twice or a stored link repeats a membership link. *)
Theorem rfEdges_ids_distinct (s : AppState) :
  NoDup (map edge_id (rfEdges s)).
Proof.
  apply NoDup_nth_error. intros i j Hi Heq.
  unfold rfEdges in *. rewrite !nth_error_map, !mapi_nth in Heq.
  rewrite length_map in Hi. unfold Js.mapi in Hi.
  rewrite mapi_from_length in Hi.
  destruct (nth_error (graphLinks s) i) as [a|] eqn:Ea.
  - destruct (nth_error (graphLinks s) j) as [b|]; [| discriminate].
    cbn [option_map] in Heq.
    apply (f_equal (fun o => match o with
                             | Some v => v
                             | None => EmptyString
                             end)) in Heq.
    exact (@edgeId_inj _ _ _ _ Heq).
  - apply nth_error_None in Ea. lia.
Qed.

(** The edges are the stored links with both ends visible, then the
    membership links, with their ends as they are. *)
Lemma rfEdges_ends (s : AppState) :
  map (fun e => Link.mk (edge_source e) (edge_target e)) (rfEdges s)
  = graphLinks s.
Proof.
  unfold rfEdges, Js.mapi. generalize 0.
  induction (graphLinks s) as [|[src tgt] l IH]; intros i; simpl;
    [| rewrite IH]; reflexivity.
Qed.

Lemma teamLinks_In (s : AppState) (l : Link.t) :
  In l (teamLinks s) <->
  exists p, In p (filteredNodes s) /\ Person.team p <> ""
            /\ l = Link.mk (team_id (Person.team p)) (Person.id p).
Proof.
  unfold teamLinks. rewrite teamLinks_fold. simpl.
  rewrite in_map_iff. split.
  - intros [p [<- Hp]]. apply filter_In in Hp. destruct Hp as [Hp Ht].
    apply truthy_true in Ht. eauto.
  - intros [p [Hp [Ht ->]]]. exists p. split; [reflexivity |].
    apply filter_In. split; [exact Hp | apply truthy_true; exact Ht].
Qed.

Lemma visible_person_rendered
    (Math_cos Math_sin : float -> float) (s : AppState) (out : list RFNode) :
  rfNodes Math_cos Math_sin s = Some out ->
  forall p, In p (filteredNodes s) -> In (Person.id p) (map rf_id out).
Proof.
  intros Hout p Hp.
  destruct (layout_shape Math_cos Math_sin s) as [circled [Hshape Hteam]].
  rewrite Hshape in Hout. injection Hout as <-.
  rewrite !map_app, !in_app_iff.
  destruct (String.eqb_spec (Person.team p) "") as [E|E].
  - left. apply in_map_iff. exists (rfNode (freeNode p)).
    split; [reflexivity |]. apply in_map, in_map, filter_In.
    split; [exact Hp | rewrite E; reflexivity].
  - right. left. destruct (Hteam p Hp E) as [tp [i [n [_ [_ Hin]]]]].
    apply in_map_iff. eexists. split; [| apply in_map; exact Hin].
    reflexivity.
Qed.

Lemma team_node_rendered
    (Math_cos Math_sin : float -> float) (s : AppState) (out : list RFNode) :
  rfNodes Math_cos Math_sin s = Some out ->
  forall p, In p (filteredNodes s) -> Person.team p <> "" ->
            In (team_id (Person.team p)) (map rf_id out).
Proof.
  intros Hout p Hp Ht.
  destruct (layout_shape Math_cos Math_sin s) as [circled [Hshape _]].
  rewrite Hshape in Hout. injection Hout as <-.
  rewrite !map_app, !in_app_iff. right. right.
  assert (Hk : exists k, nth_error (distinctTeams (filteredNodes s)) k
                         = Some (Person.team p)).
  { apply In_nth_error. unfold distinctTeams.
    apply distinct_In, filter_In. split; [apply in_map; exact Hp |].
    apply truthy_true. exact Ht. }
  destruct Hk as [k Hk].
  apply in_map_iff.
  exists (rfNode (GraphNode.pinned
                    (pinTeamNode (TeamNode.mk (team_id (Person.team p))
                                              (Person.team p)) k))).
  split; [reflexivity |]. apply in_map, in_map.
  apply (nth_error_In _ k). apply pinnedTeamNodes_nth. exact Hk.
Qed.

(** No edge of a render dangles: the render succeeds, and the source and
    the target of every edge handed to the widget are ids of nodes handed to
    it. *)
Theorem render_has_no_dangling_edge
    (Math_cos Math_sin : float -> float) (s : AppState) :
  exists out,
    rfNodes Math_cos Math_sin s = Some out
    /\ forall e, In e (rfEdges s) ->
                 In (edge_source e) (map rf_id out)
                 /\ In (edge_target e) (map rf_id out).
Proof.
  destruct (rfNodes_total Math_cos Math_sin s) as [out Hout].
  exists out. split; [exact Hout |]. intros e He.
  assert (Hl : In (Link.mk (edge_source e) (edge_target e)) (graphLinks s)).
  { rewrite <- rfEdges_ends. apply in_map_iff. eauto. }
  unfold graphLinks in Hl. apply in_app_iff in Hl. destruct Hl as [Hl|Hl].
  - unfold filteredLinks in Hl. apply filter_In in Hl.
    destruct Hl as [_ Hl]. simpl in Hl.
    rewrite andb_true_iff, !set_has_In in Hl. unfold filteredNodeIds in Hl.
    destruct Hl as [Hs Ht].
    apply in_map_iff in Hs. destruct Hs as [p [<- Hp]].
    apply in_map_iff in Ht. destruct Ht as [q [<- Hq]].
    split; eapply visible_person_rendered; eauto.
  - apply teamLinks_In in Hl. destruct Hl as [p [Hp [Ht Heq]]].
    injection Heq as -> ->. split.
    + eapply team_node_rendered; eauto.
    + eapply visible_person_rendered; eauto.
Qed.

(** With distinct ids, an edge is animated exactly when its target is the
    id of a starred person; an edge of a render always has such a target
    person, a visible one. *)
Theorem edge_animated_iff_target_starred (s : AppState) (e : RFEdge) :
  NoDup (ids s) ->
  In e (rfEdges s) ->
  (exists p, In p (filteredNodes s) /\ Person.id p = edge_target e)
  /\ (animated e = true <->
      exists p, In p (nodes s) /\ Person.id p = edge_target e
                /\ Person.starred p = true).
Proof.
  intros Hnd He.
  assert (Hl : In (Link.mk (edge_source e) (edge_target e)) (graphLinks s)).
  { rewrite <- rfEdges_ends. apply in_map_iff. eauto. }
  assert (Hvis : exists p, In p (filteredNodes s)
                           /\ Person.id p = edge_target e).
  { unfold graphLinks in Hl. apply in_app_iff in Hl. destruct Hl as [Hl|Hl].
    - unfold filteredLinks in Hl. apply filter_In in Hl.
      destruct Hl as [_ Hl]. simpl in Hl.
      rewrite andb_true_iff, !set_has_In in Hl. unfold filteredNodeIds in Hl.
      destruct Hl as [_ Ht]. apply in_map_iff in Ht.
      destruct Ht as [q [Hq1 Hq2]]. eauto.
    - apply teamLinks_In in Hl. destruct Hl as [p [Hp [_ Heq]]].
      injection Heq as _ ->. eauto. }
  split; [exact Hvis |].
  apply mapi_In in He. destruct He as [i [l [_ ->]]].
  unfold rfEdge. simpl.
  destruct (find (fun n => Person.id n =? Link.target l) (nodes s))
    as [q|] eqn:Hfind.
  - apply find_some in Hfind. destruct Hfind as [Hq Hid].
    apply String.eqb_eq in Hid. rewrite orb_false_r. split.
    + intros Hs. eauto.
    + intros [p [Hp [Hpid Hps]]].
      rewrite (@NoDup_map_In_eq _ _ Person.id (nodes s) q p); auto.
      congruence.
  - split; [discriminate |].
    intros [p [Hp [Hpid _]]].
    pose proof (find_none _ _ Hfind p Hp) as En. simpl in En.
    apply String.eqb_neq in En. contradiction.
Qed.

Lemma edge_animated_iff_target_starred_witness :
  let s := idle [plain "1" "Eng" None None;
                 Person.mk "2" "Bo" "CEO" true "Eng" "" None None]
                [Link.mk "1" "2"; Link.mk "1" "2"] in
  let e := mkRFEdge "e-1-2-1" "1" "2" true in
  In e (rfEdges s)
  /\ exists p, In p (nodes s) /\ Person.id p = "2"
               /\ Person.starred p = true.
Proof.
  cbv zeta.
  assert (Hnd : NoDup (ids (idle [plain "1" "Eng" None None;
                                  Person.mk "2" "Bo" "CEO" true "Eng" ""
                                            None None]
                                 [Link.mk "1" "2"; Link.mk "1" "2"]))).
  { repeat constructor; simpl; intuition discriminate. }
  assert (He : In (mkRFEdge "e-1-2-1" "1" "2" true)
                  (rfEdges (idle [plain "1" "Eng" None None;
                                  Person.mk "2" "Bo" "CEO" true "Eng" ""
                                            None None]
                                 [Link.mk "1" "2"; Link.mk "1" "2"])))
    by (right; left; reflexivity).
  split; [exact He |].
  exact (proj1 (proj2 (@edge_animated_iff_target_starred _ _ Hnd He)) eq_refl).
Defined.

(** ** The layout, written out *)

Lemma set_has_distinct (l : list string) (t : string) :
  Js.set_has (distinct l) t = Js.set_has l t.
Proof.
  apply eq_true_iff_eq. rewrite !set_has_In. apply distinct_In.
Qed.

Lemma distinct_snoc (l : list string) (t : string) :
  distinct (l ++ [t])
  = if Js.set_has l t then distinct l else distinct l ++ [t].
Proof.
  induction l as [|a l IH]; simpl; [reflexivity |].
  rewrite IH. unfold Js.set_has. simpl.
  destruct (String.eqb_spec t a) as [->|Hne]; simpl.
  - destruct (existsb (String.eqb a) l); [reflexivity |].
    rewrite filter_app. simpl. rewrite String.eqb_refl. simpl.
    rewrite app_nil_r. reflexivity.
  - destruct (existsb (String.eqb t) l); [reflexivity |].
    rewrite filter_app. simpl.
    destruct (String.eqb_spec t a); [contradiction | reflexivity].
Qed.

Lemma distinctTeams_snoc (l : list Person.t) (p : Person.t) :
  distinctTeams (l ++ [p])
  = if Js.truthy (Person.team p)
    then if Js.set_has (distinctTeams l) (Person.team p)
         then distinctTeams l
         else distinctTeams l ++ [Person.team p]
    else distinctTeams l.
Proof.
  unfold distinctTeams. rewrite map_app, filter_app. simpl.
  destruct (Js.truthy (Person.team p)).
  - rewrite distinct_snoc, set_has_distinct. reflexivity.
  - rewrite app_nil_r. reflexivity.
Qed.

Lemma distinctTeams_truthy (l : list Person.t) (t : string) :
  In t (distinctTeams l) -> Js.truthy t = true.
Proof.
  unfold distinctTeams. rewrite distinct_In, filter_In. tauto.
Qed.

Lemma membersIn_snoc (l : list Person.t) (p : Person.t) (k : string) :
  membersIn (l ++ [p]) k
  = membersIn l k ++ (if Person.team p =? k then [p] else []).
Proof. unfold membersIn. rewrite filter_app. reflexivity. Qed.

Lemma membersIn_new_team (l : list Person.t) (t : string) :
  Js.truthy t = true -> ~ In t (distinctTeams l) -> membersIn l t = [].
Proof.
  intros Ht Hnew. unfold membersIn.
  induction l as [|a l IH]; simpl; [reflexivity |].
  destruct (String.eqb_spec (Person.team a) t) as [E|E].
  - exfalso. apply Hnew. unfold distinctTeams.
    apply distinct_In, filter_In. simpl. rewrite E. tauto.
  - apply IH. intros H. apply Hnew. unfold distinctTeams in *.
    rewrite distinct_In, filter_In in *. simpl. tauto.
Qed.

Section KeyedMaps.

Variable V : Type.
Variable f : string -> V.

Lemma keyed_keys (ks : list string) :
  Js.map_keys (map (fun k => (k, f k)) ks) = ks.
Proof. unfold Js.map_keys. rewrite map_map. simpl. apply map_id. Qed.

Lemma keyed_get (ks : list string) (t : string) :
  In t ks -> Js.map_get (map (fun k => (k, f k)) ks) t = Some (f t).
Proof.
  induction ks as [|k ks IH]; simpl; [contradiction |].
  destruct (String.eqb_spec k t) as [->|Hne]; [reflexivity |].
  intros [H|H]; [contradiction | exact (IH H)].
Qed.

Lemma keyed_set (ks : list string) (t : string) (v : V) :
  NoDup ks -> In t ks ->
  Js.map_set (map (fun k => (k, f k)) ks) t v
  = map (fun k => (k, if k =? t then v else f k)) ks.
Proof.
  induction ks as [|k ks IH]; simpl; [contradiction |].
  intros Hnd Hin. inversion Hnd as [|? ? Hk Hks]; subst.
  destruct (String.eqb_spec k t) as [->|Hne].
  - f_equal. apply map_ext_in. intros k Hk'.
    destruct (String.eqb_spec k t); [subst; contradiction | reflexivity].
  - f_equal. destruct Hin as [H|H]; [contradiction | exact (IH Hks H)].
Qed.

Lemma map_set_twice (m : Js.JsMap V) (k : string) (v v' : V) :
  Js.map_set (Js.map_set m k v) k v' = Js.map_set m k v'.
Proof.
  induction m as [|[k0 v0] m IH]; simpl.
  - rewrite String.eqb_refl. reflexivity.
  - destruct (k0 =? k) eqn:E; simpl; rewrite E; [| rewrite IH]; reflexivity.
Qed.

End KeyedMaps.

Section LayoutExact.

Variables Math_cos Math_sin : float -> float.
Variable positions : Js.JsMap Point.t.

Lemma group_step_exact (g : list GraphNode.t) (l0 : list Person.t)
                       (p : Person.t) :
  (Js.truthy (Person.team p) = true ->
   Js.map_has positions (Person.team p) = true) ->
  group_step positions (Some (g, teamGroupsOf l0)) p
  = Some (g ++ (if Js.truthy (Person.team p) then [] else [freeNode p]),
          teamGroupsOf (l0 ++ [p])).
Proof.
  intros Hpos.
  assert (Hrhs : teamGroupsOf (l0 ++ [p])
                 = map (fun team => (team, membersIn (l0 ++ [p]) team))
                       (if Js.truthy (Person.team p)
                        then if Js.set_has (distinctTeams l0) (Person.team p)
                             then distinctTeams l0
                             else distinctTeams l0 ++ [Person.team p]
                        else distinctTeams l0)).
  { unfold teamGroupsOf. rewrite distinctTeams_snoc. reflexivity. }
  rewrite Hrhs. clear Hrhs. unfold group_step. cbn [bind].
  set (t := Person.team p) in *.
  assert (Hnd : NoDup (distinctTeams l0)) by apply distinct_NoDup.
  destruct (Js.truthy t) eqn:Et.
  - rewrite Hpos by reflexivity. cbn [andb]. rewrite app_nil_r.
    assert (Hhas : Js.map_has (teamGroupsOf l0) t
                   = Js.set_has (distinctTeams l0) t).
    { apply eq_true_iff_eq. rewrite map_has_In, set_has_In.
      unfold teamGroupsOf. rewrite keyed_keys. tauto. }
    rewrite Hhas.
    destruct (Js.set_has (distinctTeams l0) t) eqn:Eh; cbn [negb].
    + apply set_has_In in Eh. unfold teamGroupsOf.
      rewrite keyed_get by exact Eh. cbn [bind].
      rewrite keyed_set by assumption. do 2 f_equal.
      apply map_ext. intros k. rewrite membersIn_snoc. fold t.
      rewrite (String.eqb_sym t k).
      destruct (k =? t) eqn:E; [| rewrite app_nil_r; reflexivity].
      apply String.eqb_eq in E. subst k. reflexivity.
    + assert (Hnew : ~ In t (distinctTeams l0)).
      { intros H. apply set_has_In in H. congruence. }
      rewrite map_get_set_same. cbn [bind].
      rewrite map_set_twice, map_set_new by exact Hhas.
      unfold teamGroupsOf. rewrite map_app. cbn [map].
      do 3 f_equal.
      * apply map_ext_in. intros k Hk. rewrite membersIn_snoc. fold t.
        destruct (String.eqb_spec t k) as [E|E];
          [subst k; contradiction | rewrite app_nil_r; reflexivity].
      * rewrite membersIn_snoc. fold t. rewrite String.eqb_refl.
        rewrite membersIn_new_team by assumption. reflexivity.
  - cbn [andb]. do 2 f_equal. unfold teamGroupsOf.
    apply map_ext_in. intros k Hk. rewrite membersIn_snoc. fold t.
    destruct (String.eqb_spec t k) as [E|E]; [| rewrite app_nil_r; reflexivity].
    subst k. apply distinctTeams_truthy in Hk. congruence.
Qed.

Lemma first_pass_exact (l : list Person.t) :
  (forall p, In p l -> Js.truthy (Person.team p) = true ->
             Js.map_has positions (Person.team p) = true) ->
  forall g l0,
    fold_left (group_step positions) l (Some (g, teamGroupsOf l0))
    = Some (g ++ map freeNode
                   (filter (fun n => negb (Js.truthy (Person.team n))) l),
            teamGroupsOf (l0 ++ l)).
Proof.
  induction l as [|p l IH]; intros Hpos g l0; cbn [fold_left filter map].
  - rewrite !app_nil_r. reflexivity.
  - rewrite group_step_exact by (apply Hpos; left; reflexivity).
    rewrite IH by (intros q Hq; apply Hpos; right; exact Hq).
    rewrite <- (app_assoc l0 [p] l). cbn [app]. f_equal. f_equal.
    rewrite <- app_assoc.
    destruct (Js.truthy (Person.team p)); reflexivity.
Qed.

Lemma second_pass_exact (tg : Js.JsMap (list Person.t)) :
  (forall k, In k (Js.map_keys tg) -> Js.map_has positions k = true) ->
  forall g,
    fold_left (circle_step Math_cos Math_sin positions) tg (Some g)
    = Some (g ++ flat_map (circleOf Math_cos Math_sin positions) tg).
Proof.
  induction tg as [|[k ms] tg IH]; intros Hkeys g; cbn [fold_left flat_map].
  - rewrite app_nil_r. reflexivity.
  - destruct (map_has_get positions k) as [tp Htp].
    { apply Hkeys. left. reflexivity. }
    assert (Hc : circleOf Math_cos Math_sin positions (k, ms)
                 = Js.mapi (circleNode Math_cos Math_sin tp (List.length ms))
                           ms).
    { unfold circleOf. cbn [fst snd]. rewrite Htp. reflexivity. }
    rewrite Hc. unfold circle_step at 2. cbn [bind]. rewrite Htp. cbn [bind].
    rewrite IH by (intros k' Hk'; apply Hkeys; right; exact Hk').
    rewrite <- app_assoc. reflexivity.
Qed.

End LayoutExact.

Lemma rfNodes_layoutOf (Math_cos Math_sin : float -> float) (s : AppState) :
  rfNodes Math_cos Math_sin s
  = Some (map rfNode (layoutOf Math_cos Math_sin s)).
Proof.
  assert (Hpos : forall p, In p (filteredNodes s) ->
                           Js.truthy (Person.team p) = true ->
                           Js.map_has (teamPositions s) (Person.team p) = true).
  { intros p Hp Ht. pose proof (visible_team_has_position s p Hp) as Hc.
    unfold hasTeamPosition in Hc. rewrite Ht in Hc. exact Hc. }
  unfold rfNodes, graphNodes, graphPersonNodes, layoutOf.
  change (Some (@nil GraphNode.t, @nil (string * list Person.t)))
    with (Some (@nil GraphNode.t, teamGroupsOf [])).
  unfold Js.JsMap in *.
  rewrite (@first_pass_exact (teamPositions s) (filteredNodes s) Hpos).
  cbn [bind app].
  rewrite second_pass_exact.
  - cbn [bind]. rewrite <- app_assoc. reflexivity.
  - intros k Hk. unfold teamGroupsOf in Hk. rewrite keyed_keys in Hk.
    apply map_has_In. rewrite teamPositions_keys. exact Hk.
Qed.

(** The layout in full.  A render never throws, and its nodes are, in this
    order: the visible persons without a team at their stored coordinates (0
    for a missing one); team by team in first-seen order, the visible
    members of the team in their order, member [i] of [n] on the circle
    around the position of the team; the team nodes. *)
Theorem layout_exact (Math_cos Math_sin : float -> float) (s : AppState) :
  rfNodes Math_cos Math_sin s
  = Some (map rfNode
            (map freeNode
                 (filter (fun n => negb (Js.truthy (Person.team n)))
                         (filteredNodes s))
             ++ flat_map (circleOf Math_cos Math_sin (teamPositions s))
                         (map (fun team =>
                                 (team, membersIn (filteredNodes s) team))
                              (distinctTeams (filteredNodes s)))
             ++ map GraphNode.pinned (pinnedTeamNodes s))).
Proof. rewrite rfNodes_layoutOf. reflexivity. Qed.

(** ** Every visible person is rendered once *)

Lemma flat_map_ext_in {A B : Type} (f g : A -> list B) (l : list A) :
  (forall a, In a l -> f a = g a) -> flat_map f l = flat_map g l.
Proof.
  intros H. induction l as [|a l IH]; simpl; [reflexivity |].
  rewrite (H a) by (left; reflexivity).
  rewrite IH by (intros b Hb; apply H; right; exact Hb). reflexivity.
Qed.

Lemma flat_map_extract {A : Type} (f : string -> list A) (D : list string)
                       (t : string) :
  NoDup D ->
  Permutation (flat_map f D)
              ((if Js.set_has D t then f t else [])
               ++ flat_map f (filter (fun k => negb (k =? t)) D)).
Proof.
  induction 1 as [|a D Ha Hnd IH]; simpl; [constructor |].
  unfold Js.set_has in *. simpl.
  destruct (String.eqb_spec t a) as [->|Hne]; simpl.
  - rewrite String.eqb_refl. simpl.
    rewrite forallb_filter_id; [reflexivity |].
    apply forallb_forall. intros k Hk.
    rewrite negb_true_iff, String.eqb_neq. congruence.
  - destruct (String.eqb_spec a t) as [E|_]; [congruence |]. simpl.
    eapply Permutation_trans; [apply Permutation_app_head; exact IH |].
    apply Permutation_app_swap_app.
Qed.

Lemma partition_teams (V : list Person.t) :
  Permutation
    (filter (fun n => negb (Js.truthy (Person.team n))) V
     ++ flat_map (membersIn V) (distinctTeams V))
    V.
Proof.
  induction V as [|a V IH]; [constructor |].
  cbn [filter]. destruct (Js.truthy (Person.team a)) eqn:Et; cbn [negb].
  - assert (Hd : distinctTeams (a :: V)
                 = Person.team a
                   :: filter (fun k => negb (k =? Person.team a))
                             (distinctTeams V)).
    { unfold distinctTeams. simpl. rewrite Et. reflexivity. }
    rewrite Hd. cbn [flat_map].
    assert (Hhead : membersIn (a :: V) (Person.team a)
                    = a :: membersIn V (Person.team a)).
    { unfold membersIn. simpl. rewrite String.eqb_refl. reflexivity. }
    assert (Hrest : flat_map (membersIn (a :: V))
                      (filter (fun k => negb (k =? Person.team a))
                              (distinctTeams V))
                    = flat_map (membersIn V)
                        (filter (fun k => negb (k =? Person.team a))
                                (distinctTeams V))).
    { apply flat_map_ext_in. intros k Hk. apply filter_In in Hk.
      destruct Hk as [_ Hk]. rewrite negb_true_iff in Hk.
      unfold membersIn. simpl. rewrite String.eqb_sym, Hk. reflexivity. }
    rewrite Hhead, Hrest. cbn [app].
    apply Permutation_sym, Permutation_cons_app, Permutation_sym.
    eapply Permutation_trans; [| exact IH].
    apply Permutation_app_head, Permutation_sym.
    eapply Permutation_trans;
      [apply (@flat_map_extract _ (membersIn V) (distinctTeams V)
                (Person.team a)); apply distinct_NoDup |].
    destruct (Js.set_has (distinctTeams V) (Person.team a)) eqn:Eh;
      [apply Permutation_refl |].
    rewrite membersIn_new_team; [apply Permutation_refl | exact Et |].
    intros H. apply set_has_In in H. congruence.
  - assert (Hd : distinctTeams (a :: V) = distinctTeams V).
    { unfold distinctTeams. simpl. rewrite Et. reflexivity. }
    rewrite Hd.
    rewrite (flat_map_ext_in (membersIn (a :: V)) (membersIn V)).
    + cbn [app]. apply perm_skip. exact IH.
    + intros k Hk. apply distinctTeams_truthy in Hk.
      unfold membersIn. simpl.
      destruct (String.eqb_spec (Person.team a) k) as [E|_];
        [| reflexivity].
      congruence.
Qed.

Lemma circle_ids (Math_cos Math_sin : float -> float) (tp : Point.t)
                 (n : nat) (ms : list Person.t) :
  forall i,
    map (fun g => rf_id (rfNode g))
        (Js.mapi_from (circleNode Math_cos Math_sin tp n) i ms)
    = map Person.id ms.
Proof.
  induction ms as [|p ms IH]; intros i; simpl; [| rewrite IH]; reflexivity.
Qed.

Lemma circles_ids (Math_cos Math_sin : float -> float)
                  (positions : Js.JsMap Point.t) (V : list Person.t)
                  (ks : list string) :
  (forall k, In k ks -> Js.map_has positions k = true) ->
  map (fun g => rf_id (rfNode g))
      (flat_map (circleOf Math_cos Math_sin positions)
                (map (fun k => (k, membersIn V k)) ks))
  = map Person.id (flat_map (membersIn V) ks).
Proof.
  induction ks as [|k ks IH]; intros Hpos; simpl; [reflexivity |].
  rewrite !map_app, IH by (intros k' Hk'; apply Hpos; right; exact Hk').
  f_equal. unfold circleOf. cbn [fst snd].
  destruct (map_has_get positions k) as [tp Htp];
    [apply Hpos; left; reflexivity |].
  rewrite Htp. apply circle_ids.
Qed.

Lemma pinned_ids_from (l : list TeamNode.t) :
  forall i,
    map (fun t => rf_id (rfNode (GraphNode.pinned t)))
        (Js.mapi_from pinTeamNode i l)
    = map TeamNode.id l.
Proof.
  induction l as [|a l IH]; intros i; simpl; [| rewrite IH]; reflexivity.
Qed.

(** Who is on the graph.  The ids of the nodes of a render are, up to
    their order, the ids of the visible persons, each as often as it is
    visible, and one "team_" id per distinct non-empty team among them; so a
    render has as many nodes as there are visible persons and teams. *)
Theorem render_shows_each_visible_person_once
    (Math_cos Math_sin : float -> float) (s : AppState) :
  exists out,
    rfNodes Math_cos Math_sin s = Some out
    /\ Permutation (map rf_id out)
         (map Person.id (filteredNodes s)
          ++ map (String.append "team_") (distinctTeams (filteredNodes s)))
    /\ List.length out
       = List.length (filteredNodes s)
         + List.length (distinctTeams (filteredNodes s)).
Proof.
  assert (Hperm :
    Permutation (map rf_id (map rfNode (layoutOf Math_cos Math_sin s)))
      (map Person.id (filteredNodes s)
       ++ map (String.append "team_") (distinctTeams (filteredNodes s)))).
  { unfold layoutOf. rewrite map_map, !map_app, app_assoc.
    apply Permutation_app.
    - rewrite map_map.
      change (map (fun x => rf_id (rfNode (freeNode x))))
        with (map Person.id).
      unfold teamGroupsOf. rewrite circles_ids.
      + rewrite <- map_app. apply Permutation_map, partition_teams.
      + intros k Hk. apply map_has_In. rewrite teamPositions_keys. exact Hk.
    - rewrite map_map. unfold pinnedTeamNodes, Js.mapi.
      rewrite pinned_ids_from, teamNodesArray_distinct, map_map.
      reflexivity. }
  exists (map rfNode (layoutOf Math_cos Math_sin s)).
  split; [apply rfNodes_layoutOf |]. split; [exact Hperm |].
  apply Permutation_length in Hperm.
  rewrite !length_map, length_app, !length_map in Hperm.
  rewrite length_map. exact Hperm.
Qed.

(** ** The earlier variant of the layout *)

Lemma earlier_pinned_labels_from (l : list TeamNode.t) :
  forall i,
    map PinnedTeamNode.label (Js.mapi_from Earlier.pinTeamNode i l)
    = map TeamNode.label l.
Proof.
  induction l as [|a l IH]; intros i; simpl; [| rewrite IH]; reflexivity.
Qed.

Lemma earlier_pinned_labels (s : AppState) :
  map PinnedTeamNode.label (Earlier.pinnedTeamNodes s)
  = distinctTeams (filteredNodes s).
Proof.
  unfold Earlier.pinnedTeamNodes, Js.mapi.
  rewrite earlier_pinned_labels_from, teamNodesArray_distinct, map_map.
  simpl. apply map_id.
Qed.

Lemma earlier_pinned_nth (s : AppState) (k : nat) (name : string) :
  nth_error (distinctTeams (filteredNodes s)) k = Some name ->
  nth_error (Earlier.pinnedTeamNodes s) k
  = Some (Earlier.pinTeamNode (TeamNode.mk (team_id name) name) k).
Proof.
  intros Hk. unfold Earlier.pinnedTeamNodes.
  rewrite mapi_nth, teamNodesArray_distinct, nth_error_map, Hk. reflexivity.
Qed.

Lemma earlier_teamPositions_get (s : AppState) (k : nat) (name : string) :
  nth_error (distinctTeams (filteredNodes s)) k = Some name ->
  Js.map_get (Earlier.teamPositions s) name
  = Some (Point.mk ((Z.of_nat k + 1) * 250)%Z 50%Z).
Proof.
  intros Hk.
  assert (Hnd : NoDup (map PinnedTeamNode.label (Earlier.pinnedTeamNodes s)))
    by (rewrite earlier_pinned_labels; apply distinct_NoDup).
  unfold Earlier.teamPositions.
  rewrite teamPositions_fold; [| exact Hnd | intros ? _ []].
  exact (@map_get_entries (Earlier.pinnedTeamNodes s) Hnd k _
           (earlier_pinned_nth s k Hk)).
Qed.

(** In the earlier variant the team nodes are on one row without end: the
    k-th distinct visible team is pinned at ((k + 1) * 250, 50), for
    every k. *)
Theorem earlier_pinned_row (s : AppState) (k : nat) (name : string) :
  nth_error (distinctTeams (filteredNodes s)) k = Some name ->
  exists node,
    nth_error (Earlier.pinnedTeamNodes s) k = Some node
    /\ PinnedTeamNode.id node = String.append "team_" name
    /\ PinnedTeamNode.label node = name
    /\ PinnedTeamNode.fx node = ((Z.of_nat k + 1) * 250)%Z
    /\ PinnedTeamNode.fy node = 50%Z.
Proof.
  intros Hk. eexists. split; [apply earlier_pinned_nth; exact Hk |].
  repeat split.
Qed.

Lemma earlier_pinned_row_witness :
  let s := idle (map (fun t => plain t t None None)
                     ["a"; "b"; "c"; "d"; "a"; "e"]) [] in
  nth_error (distinctTeams (filteredNodes s)) 4 = Some "e"
  /\ exists node,
       nth_error (Earlier.pinnedTeamNodes s) 4 = Some node
       /\ PinnedTeamNode.id node = "team_e"
       /\ PinnedTeamNode.label node = "e"
       /\ PinnedTeamNode.fx node = 1250%Z
       /\ PinnedTeamNode.fy node = 50%Z.
Proof.
  split; [reflexivity |].
  exact (@earlier_pinned_row
           (idle (map (fun t => plain t t None None)
                      ["a"; "b"; "c"; "d"; "a"; "e"]) [])
           4 "e" eq_refl).
Defined.

(** In the earlier variant a stored position wins: a visible person with
    both coordinates stored gets exactly them, with or without a team.  A
    person with a team and no coordinate stored is put 100 below the node of
    its team, the k-th distinct visible team: at ((k + 1) * 250, 150).  Every
    other person (one coordinate stored, or none and no team) is handed over
    without a position. *)
Theorem earlier_person_position (s : AppState) (p : Person.t) :
  In p (filteredNodes s) ->
  exists node,
    In node (Earlier.graphPersonNodes s)
    /\ Earlier.id node = Person.id p
    /\ Earlier.label node = nodeLabel p
    /\ (forall px py, Person.x p = Some px -> Person.y p = Some py ->
                      Earlier.extraProps node = Some (px, py))
    /\ (forall k, Person.x p = None -> Person.y p = None ->
                  nth_error (distinctTeams (filteredNodes s)) k
                  = Some (Person.team p) ->
                  Earlier.extraProps node
                  = Some (Js.num_of_Z ((Z.of_nat k + 1) * 250), 150%float))
    /\ (Person.x p = None -> Person.y p = None -> Person.team p = "" ->
        Earlier.extraProps node = None)
    /\ (Earlier.isUndefined (Person.x p) <> Earlier.isUndefined (Person.y p) ->
        Earlier.extraProps node = None).
Proof.
  intros Hp.
  exists (Earlier.graphPersonNode (Earlier.teamPositions s) p).
  split; [apply in_map; exact Hp |].
  split; [reflexivity |]. split; [reflexivity |].
  unfold Earlier.graphPersonNode. cbn [Earlier.extraProps].
  split; [| split; [| split]].
  - intros px py -> ->. cbn [Earlier.isUndefined].
    rewrite andb_false_r. reflexivity.
  - intros k -> -> Hk. cbn [Earlier.isUndefined].
    assert (Ht : Js.truthy (Person.team p) = true).
    { eapply distinctTeams_truthy. eapply nth_error_In. exact Hk. }
    rewrite Ht. cbn [andb].
    rewrite (earlier_teamPositions_get s k Hk). reflexivity.
  - intros -> -> ->. reflexivity.
  - intros Hdiff.
    destruct (Person.x p), (Person.y p); cbn [Earlier.isUndefined] in *;
      try congruence; rewrite ?andb_false_r; reflexivity.
Qed.

Lemma earlier_person_position_witness :
  let p := Person.mk "1" "person 1" "To do" false "Eng" ""
                     (Some 10%float) (Some 20%float) in
  In p (filteredNodes dragged)
  /\ exists node,
       In node (Earlier.graphPersonNodes dragged)
       /\ Earlier.id node = "1"
       /\ Earlier.extraProps node = Some (10%float, 20%float).
Proof.
  cbv zeta. split; [left; reflexivity |].
  destruct (@earlier_person_position dragged
              (Person.mk "1" "person 1" "To do" false "Eng" ""
                         (Some 10%float) (Some 20%float))
              (or_introl eq_refl))
    as [node [Hin [Hid [_ [Hstored _]]]]].
  exists node. split; [exact Hin |]. split; [exact Hid |].
  apply Hstored; reflexivity.
Defined.

(** ** Placement of a team member, by its index *)

(** Placement of team members.  Let a team be the k-th distinct visible team
    (from 0, first seen first) and let a person be the i-th (from 0) of the
    [n] visible members of that team, in the order of the document.  Then
    the render shows the person on the circle of radius 200 around the grid
    position of the team, at angle 2 pi i / n.  Its stored coordinates play
    no part. *)
Theorem team_member_on_circle
    (Math_cos Math_sin : float -> float) (s : AppState) (p : Person.t)
    (k i : nat) :
  nth_error (distinctTeams (filteredNodes s)) k = Some (Person.team p) ->
  nth_error (membersIn (filteredNodes s) (Person.team p)) i = Some p ->
  let n := List.length (membersIn (filteredNodes s) (Person.team p)) in
  let angle :=
    ((2 * Js.Math_PI * Js.num_of_nat i) / Js.num_of_nat n)%float in
  exists out,
    rfNodes Math_cos Math_sin s = Some out
    /\ In (mkRFNode (Person.id p)
                    ((Js.num_of_Z ((Z.of_nat (k mod 3) + 1) * 800)
                      + 200 * Math_cos angle)%float,
                     (Js.num_of_Z (nth (k / 3) [50; 450; 850]%Z 0%Z)
                      + 200 * Math_sin angle)%float)
                    (nodeLabel p)
                    (Js.map_get statusColors (Person.status p))
                    (Some (if Person.status p =? "Rejected"
                           then 0x1.999999999999ap-2%float else 1%float))
                    (negb (String.prefix "team_" (Person.id p))))
          out.
Proof.
  intros Hk Hi n angle.
  exists (map rfNode (layoutOf Math_cos Math_sin s)).
  split; [apply rfNodes_layoutOf |].
  unfold layoutOf. rewrite !map_app, !in_app_iff. right. left.
  apply (in_map rfNode _
           (circleNode Math_cos Math_sin
              (Point.mk ((Z.of_nat (k mod 3) + 1) * 800)%Z
                        (nth (k / 3) [50; 450; 850]%Z 0%Z))
              n p i)).
  apply in_flat_map.
  exists (Person.team p, membersIn (filteredNodes s) (Person.team p)).
  split.
  - unfold teamGroupsOf.
    apply (in_map (fun team => (team, membersIn (filteredNodes s) team))).
    eapply nth_error_In. exact Hk.
  - unfold circleOf. cbn [fst snd]. rewrite (teamPositions_get s k Hk).
    apply mapi_In. exists i, p. split; [exact Hi | reflexivity].
Qed.

Lemma team_member_on_circle_witness :
  let s := idle [plain "1" "Eng" None None; plain "2" "" None None;
                 plain "3" "Eng" (Some 10%float) (Some 20%float)] [] in
  let angle := ((2 * Js.Math_PI * 1) / 2)%float in
  nth_error (distinctTeams (filteredNodes s)) 0 = Some "Eng"
  /\ nth_error (membersIn (filteredNodes s) "Eng") 1
     = Some (plain "3" "Eng" (Some 10%float) (Some 20%float))
  /\ exists out,
       rfNodes (fun a => a) (fun a => (a * 2)%float) s = Some out
       /\ In (mkRFNode "3"
                ((800 + 200 * angle)%float, (50 + 200 * (angle * 2))%float)
                "person 3" (Some "#3498db") (Some 1%float) true)
             out.
Proof.
  cbv zeta. split; [reflexivity |]. split; [reflexivity |].
  exact (@team_member_on_circle
           (fun a => a) (fun a => (a * 2)%float)
           (idle [plain "1" "Eng" None None; plain "2" "" None None;
                  plain "3" "Eng" (Some 10%float) (Some 20%float)] [])
           (plain "3" "Eng" (Some 10%float) (Some 20%float))
           0 1 eq_refl eq_refl).
Defined.

(* ================================================================== *)
(** ** Distinct ids over a session *)

Lemma ids_updatePersonWith (resolved : bool) (s : AppState) :
  ids (fst (updatePersonWith resolved s)) = ids s.
Proof.
  unfold updatePersonWith, ids.
  destruct (selectedPerson s) as [sel|]; [| reflexivity]. simpl.
  rewrite map_map. apply map_ext_in. intros a _.
  destruct (Person.id a =? Person.id sel) eqn:E; [| reflexivity].
  apply String.eqb_eq in E. congruence.
Qed.

Lemma ids_drag (nodeId : string) (px py : float) (s : AppState) :
  ids (onNodeDragStop nodeId px py s) = ids s.
Proof.
  unfold ids. rewrite nodes_drag, map_map. apply map_ext. intros a.
  destruct (Person.id a =? nodeId); reflexivity.
Qed.

(** What one event does to the ids: an adding event appends the next id, a
    click on Delete removes the id of the selected person wherever it occurs,
    every other event leaves the ids alone. *)
Lemma ids_handle (e : Event) (s : AppState) :
  ids (handle e s) =
    if addsPerson e s then ids s ++ [next_id s]
    else match e, selectedPerson s with
         | ClickDelete, Some sel =>
             filter (fun i => negb (i =? Person.id sel)) (ids s)
         | _, _ => ids s
         end.
Proof.
  destruct e; cbn [handle addsPerson];
    try (destruct (selectedPerson s); reflexivity).
  - unfold onNewTeamChange. destruct (teamOption s =? "other");
      destruct (selectedPerson s); reflexivity.
  - rewrite ids_addNode. unfold appends.
    destruct (Js.truthy (NewNodeInput.name (newNode s)));
      destruct (selectedPerson s); reflexivity.
  - unfold onNodeClick, handleNodeClick.
    destruct (String.prefix "team_" nodeId);
      [destruct (selectedPerson s); reflexivity |].
    destruct (find (fun node => Person.id node =? nodeId) (nodes s));
      destruct (selectedPerson s); reflexivity.
  - rewrite ids_drag. destruct (selectedPerson s); reflexivity.
  - unfold onEdit. destruct (selectedPerson s); reflexivity.
  - unfold inModal. destruct (selectedPerson s); reflexivity.
  - unfold inModal. destruct (selectedPerson s); reflexivity.
  - unfold inModal. destruct (selectedPerson s); reflexivity.
  - unfold inModal. destruct (selectedPerson s); reflexivity.
  - rewrite ids_updatePersonWith. destruct (selectedPerson s); reflexivity.
  - rewrite ids_deletePerson. reflexivity.
  - rewrite ids_addChildPerson. unfold appends.
    destruct (selectedPerson s); [| reflexivity].
    destruct (Js.truthy (childName s)); reflexivity.
Qed.

Lemma NoDup_snoc_inv {A : Type} (l : list A) (a : A) :
  NoDup (l ++ [a]) -> ~ In a l.
Proof.
  intros H Hin. apply NoDup_remove_2 in H. apply H.
  rewrite app_nil_r. exact Hin.
Qed.

(** One event keeps the ids distinct exactly when, if it appends a person,
    the id it assigns is not in use. *)
Lemma handle_NoDup (e : Event) (s : AppState) :
  NoDup (ids s) ->
  (NoDup (ids (handle e s))
   <-> (addsPerson e s = true -> ~ In (next_id s) (ids s))).
Proof.
  intros Hnd. rewrite ids_handle.
  destruct (addsPerson e s).
  - split.
    + intros H _. apply NoDup_snoc_inv. exact H.
    + intros H. apply NoDup_snoc; auto.
  - split; [intros _; discriminate |]. intros _.
    destruct e; try exact Hnd.
    destruct (selectedPerson s); [apply NoDup_filter |]; exact Hnd.
Qed.

Lemma session_cons (e : Event) (events : list Event) (s : AppState) :
  session (e :: events) s = session events (handle e s).
Proof. reflexivity. Qed.

Lemma freshAdds_prefixes (events : list Event) :
  forall s : AppState,
    NoDup (ids s) ->
    (freshAdds events s
     <-> forall k, NoDup (ids (session (firstn k events) s))).
Proof.
  induction events as [|e rest IH]; intros s Hnd.
  - split; [| intros _; exact I].
    intros _ k. rewrite firstn_nil. exact Hnd.
  - cbn [freshAdds]. split.
    + intros [He Hrest] [|k]; [exact Hnd |].
      cbn [firstn]. rewrite session_cons.
      apply (IH (handle e s)); [| exact Hrest].
      apply handle_NoDup; assumption.
    + intros Hall.
      assert (Hstep : NoDup (ids (handle e s))) by exact (Hall 1).
      split; [apply handle_NoDup; assumption |].
      apply IH; [exact Hstep |]. intros k. exact (Hall (S k)).
Qed.

(** C3, as the code has it.  Take a session of the page: any sequence of
    its events (typing and choosing in the forms and filters, clicks on Add
    Person, on a node, on Save, Delete, Add Child and Cancel, drags), from a
    document with distinct ids.  If each event that appends a person is
    handled in a state where the id it assigns, the decimal string of
    (node count + 1), is not in use, the session ends in a document with
    distinct ids; and the ids are distinct after every event of the session
    exactly when that condition holds. *)
Theorem ids_distinct_when_adds_fresh (events : list Event) :
  forall s : AppState,
    NoDup (ids s) ->
    (freshAdds events s -> NoDup (ids (session events s)))
    /\ (freshAdds events s
        <-> forall k, NoDup (ids (session (firstn k events) s))).
Proof.
  intros s Hnd. split; [| apply freshAdds_prefixes; exact Hnd].
  intros Hfresh. rewrite <- (firstn_all events).
  apply freshAdds_prefixes; assumption.
Qed.

Lemma ids_distinct_when_adds_fresh_witness :
  let events :=
    [TypeName "Eve"; ClickAddPerson;
     TypeName "Fay"; ChooseConnection "4"; ClickAddPerson;
     ClickNode "2"; EditSelected (EditStatus "CEO"); ClickSave true;
     ClickNode "5"; TypeChildName "Gus"; ClickAddChild;
     DragNode "6" 10%float 20%float; ClickNode "6"; ClickDelete] in
  NoDup (ids threePersons)
  /\ freshAdds events threePersons
  /\ ids (session events threePersons) = ["1"; "2"; "3"; "4"; "5"]
  /\ NoDup (ids (session events threePersons)).
Proof.
  cbv zeta.
  assert (Hnd : NoDup (ids threePersons)).
  { repeat constructor; simpl; intuition discriminate. }
  assert (Hfresh :
    freshAdds
      [TypeName "Eve"; ClickAddPerson;
       TypeName "Fay"; ChooseConnection "4"; ClickAddPerson;
       ClickNode "2"; EditSelected (EditStatus "CEO"); ClickSave true;
       ClickNode "5"; TypeChildName "Gus"; ClickAddChild;
       DragNode "6" 10%float 20%float; ClickNode "6"; ClickDelete]
      threePersons).
  { cbn [freshAdds].
    repeat (split; [try (intros H; discriminate H);
                    intros _; vm_compute; intuition discriminate |]).
    exact I. }
  split; [exact Hnd |]. split; [exact Hfresh |]. split; [reflexivity |].
  exact (proj1 (@ids_distinct_when_adds_fresh _ threePersons Hnd) Hfresh).
Defined.

(** C3, as stated, fails: persons "1", "2", "3" have distinct ids; clicking
    person "2", pressing Delete, typing a name and pressing Add Person gives
    the new person the id "3" (two nodes are left, and 2 + 1 = 3), which
    person "3" already has. *)
Lemma ids_collide_after_delete :
  let events := [ClickNode "2"; ClickDelete; TypeName "Eve"; ClickAddPerson] in
  NoDup (ids threePersons)
  /\ ids (session events threePersons) = ["1"; "3"; "3"]
  /\ ~ NoDup (ids (session events threePersons)).
Proof.
  cbv zeta.
  split; [repeat constructor; simpl; intuition discriminate |].
  split; [reflexivity |].
  intros H. vm_compute in H.
  inversion H as [|? ? _ H1]. inversion H1 as [|? ? Hin _].
  apply Hin. left. reflexivity.
Qed.

(** In a session in which Delete is never clicked and that starts from a
    document whose ids are "1", ..., "n" in this order (the empty document is
    one), the ids stay "1", ..., "n" whatever else happens (any number of
    persons and children added, edits, drags, filters) and so stay
    distinct. *)
Theorem ids_distinct_without_delete (events : list Event) :
  forall s : AppState,
    sequential s -> ~ In ClickDelete events ->
    sequential (session events s) /\ NoDup (ids (session events s)).
Proof.
  induction events as [|e rest IH]; intros s Hs Hnd.
  - split; [exact Hs | apply sequential_NoDup; exact Hs].
  - rewrite session_cons.
    apply IH; [| intros H; apply Hnd; right; exact H].
    pose proof (ids_handle e s) as E.
    destruct (addsPerson e s);
      [eapply sequential_snoc; eauto |].
    eapply sequential_same; [exact Hs |]. rewrite E.
    destruct e; try reflexivity.
    exfalso. apply Hnd. left. reflexivity.
Qed.

Lemma ids_distinct_without_delete_witness :
  let events :=
    [TypeName "Ann"; ClickAddPerson;
     TypeName "Bob"; ChooseConnection "1"; ClickAddPerson;
     ClickNode "2"; TypeChildName "Cy"; ClickAddChild;
     EditSelected (EditStarred true); ClickSave false; ClickCancel;
     TypeName "Dee"; ClickAddPerson] in
  sequential (idle [] [])
  /\ ~ In ClickDelete events
  /\ ids (session events (idle [] [])) = ["1"; "2"; "3"; "4"]
  /\ NoDup (ids (session events (idle [] []))).
Proof.
  cbv zeta.
  assert (Hs : sequential (idle [] [])) by reflexivity.
  assert (Hnd : ~ In ClickDelete
    [TypeName "Ann"; ClickAddPerson;
     TypeName "Bob"; ChooseConnection "1"; ClickAddPerson;
     ClickNode "2"; TypeChildName "Cy"; ClickAddChild;
     EditSelected (EditStarred true); ClickSave false; ClickCancel;
     TypeName "Dee"; ClickAddPerson]).
  { simpl. intuition discriminate. }
  split; [exact Hs |]. split; [exact Hnd |]. split; [reflexivity |].
  exact (proj2 (@ids_distinct_without_delete _ _ Hs Hnd)).
Defined.
